(** * AutoBook: the leveling field book, its reduction engine and its editors

    A shallow embedding of [src/lib/types.ts], [src/lib/calculations.ts],
    [src/lib/chainage.ts], [src/lib/storage.ts] and of the handlers of
    [src/app/project/[id]/page.tsx] and of the project list that work on the
    rows of a project: the closing-row effect, the re-application of a
    pattern, the removal of a change point and the dipping form.

    Conventions of the embedding.
    - A JavaScript [number] holding a reading, a level or an offset is an
      IEEE 754 binary64 value, Rocq's primitive [float]: [+], [-], [*] and
      [/] are the hardware operations, and the truthiness test of JavaScript
      ([!x], [x || y]) is [Js.truthy].
    - An optional property [p?: T] is an [option T]; [undefined] is [None].
      The declared types exclude [null].
    - Whole numbers (chainage metres, intervals, counts, clock readings) are
      in [Z]: the code only adds, multiplies, divides by 1000 and compares
      them, which binary64 does exactly below 2^53.  Beyond, the code
      rounds: the statements on the arithmetic of chainages name the range
      ([maxExact]), and [parseChainage64] and [formatChainage64] are the two
      functions as they compute in binary64.
    - A string is a [string] of ASCII characters.
    - An array is a [list]; [a[i]] is [a !! i], and an index is a [nat].
    - [Date.now()] is a parameter of the function that calls it.
    - The [for] loop of the generator is a function with a bound on its
      turns ([fuel]); it answers [None] when the bound is reached with the
      loop still running. *)

From Stdlib Require Import ZArith Floats String Ascii Lia.
From Stdlib Require Uint63 Decimal DecimalString DecimalZ.
From Stdlib Require Hexadecimal HexadecimalString.
From stdpp Require Import base option list.

Local Open Scope Z_scope.

(* Decimal literals denote the nearest binary64 value, as in JavaScript. *)
Set Warnings "-inexact-float".

(** ** JavaScript numbers *)

Module Js.

(** [Boolean(x)] for a number: false on [0], [-0] and [NaN]. *)
Definition truthy (x : float) : bool :=
  negb (PrimFloat.eqb x 0%float || PrimFloat.is_nan x).

(** [x || y] for [x : number | undefined]. *)
Definition or_else (x : option float) (y : float) : float :=
  match x with
  | Some v => if truthy v then v else y
  | None => y
  end.

(** [!x] for [x : number | undefined]. *)
Definition falsy_opt (x : option float) : bool :=
  match x with
  | Some v => negb (truthy v)
  | None => true
  end.

(** [Boolean(b)] for [b?: boolean]. *)
Definition flag (b : option bool) : bool :=
  match b with
  | Some true => true
  | _ => false
  end.

End Js.

(** ** JavaScript strings *)

Module Str.

Local Open Scope string_scope.

(** [String(n)] for a whole number [n]. *)
Definition ofZ (n : Z) : string :=
  DecimalString.NilZero.string_of_int (Z.to_int n).

Fixpoint repeat (c : ascii) (n : nat) : string :=
  match n with
  | O => ""
  | S k => String c (repeat c k)
  end.

(** [s.padStart(n, c)] for a one-character pad [c]. *)
Definition padStart (n : nat) (c : ascii) (s : string) : string :=
  repeat c (n - String.length s) ++ s.

(** [s.startsWith(p)]. *)
Fixpoint startsWith (p s : string) : bool :=
  match p, s with
  | EmptyString, _ => true
  | String a p', String b s' => Ascii.eqb a b && startsWith p' s'
  | String _ _, EmptyString => false
  end.

(** [s.includes(p)]. *)
Fixpoint includes (p s : string) : bool :=
  startsWith p s ||
  match s with
  | EmptyString => false
  | String _ s' => includes p s'
  end.

(** [s || t]: the empty string is the only falsy string. *)
Definition or_else (s t : string) : string :=
  match s with
  | EmptyString => t
  | _ => s
  end.

(** [s.endsWith(p)]. *)
Fixpoint endsWith (p s : string) : bool :=
  String.eqb s p ||
  match s with
  | EmptyString => false
  | String _ s' => endsWith p s'
  end.

(** White space of [trim] and [parseInt] among the ASCII characters: TAB,
    LF, VT, FF, CR and the space. *)
Definition isWhite (c : ascii) : bool :=
  let n := nat_of_ascii c in
  ((9 <=? n)%nat && (n <=? 13)%nat) || (n =? 32)%nat.

Fixpoint trimStart (s : string) : string :=
  match s with
  | String c s' => if isWhite c then trimStart s' else s
  | EmptyString => s
  end.

Fixpoint trimEnd (s : string) : string :=
  match s with
  | String c s' =>
      match trimEnd s' with
      | EmptyString => if isWhite c then "" else String c ""
      | t => String c t
      end
  | EmptyString => ""
  end.

(** [s.trim()]. *)
Definition trim (s : string) : string := trimEnd (trimStart s).

Definition upper (c : ascii) : ascii :=
  let n := nat_of_ascii c in
  if ((97 <=? n)%nat && (n <=? 122)%nat)%bool then ascii_of_nat (n - 32) else c.

Definition lower (c : ascii) : ascii :=
  let n := nat_of_ascii c in
  if ((65 <=? n)%nat && (n <=? 90)%nat)%bool then ascii_of_nat (n + 32) else c.

(** [s.toUpperCase()] on ASCII text. *)
Fixpoint toUpperCase (s : string) : string :=
  match s with
  | String c s' => String (upper c) (toUpperCase s')
  | EmptyString => ""
  end.

(** [s.split(c)] for a one-character separator [c]. *)
Fixpoint split (sep : ascii) (s : string) : list string :=
  match s with
  | EmptyString => [""]
  | String c s' =>
      if Ascii.eqb c sep then "" :: split sep s'
      else
        match split sep s' with
        | part :: parts => String c part :: parts
        | [] => [String c ""]
        end
  end.

(** The longest prefix of decimal digits, as a numeral. *)
Fixpoint decPrefix (s : string) : Decimal.uint :=
  match s with
  | String c s' =>
      match DecimalString.uint_of_char c (Some (decPrefix s')) with
      | Some d => d
      | None => Decimal.Nil
      end
  | EmptyString => Decimal.Nil
  end.

(** The longest prefix of hexadecimal digits of either case. *)
Fixpoint hexPrefix (s : string) : Hexadecimal.uint :=
  match s with
  | String c s' =>
      match HexadecimalString.uint_of_char (lower c) (Some (hexPrefix s')) with
      | Some d => d
      | None => Hexadecimal.Nil
      end
  | EmptyString => Hexadecimal.Nil
  end.

(** [s.slice(n)]. *)
Fixpoint skip (n : nat) (s : string) : string :=
  match n, s with
  | S k, String _ s' => skip k s'
  | _, _ => s
  end.

(** [parseInt(s)] with no radix; [None] is [NaN].  Leading white space is
    skipped, then a sign, then "0x" or "0X", which selects base 16; the
    digits that follow are read as far as they go. *)
Definition parseInt (s : string) : option Z :=
  let s := trimStart s in
  let '(negative, s) :=
    match s with
    | String "-" s' => (true, s')
    | String "+" s' => (false, s')
    | _ => (false, s)
    end in
  let magnitude :=
    if (startsWith "0x" s || startsWith "0X" s)%bool then
      match hexPrefix (skip 2 s) with
      | Hexadecimal.Nil => None
      | h => Some (Z.of_hex_uint h)
      end
    else
      match decPrefix s with
      | Decimal.Nil => None
      | d => Some (Z.of_uint d)
      end in
  option_map (fun v => if negative then (- v)%Z else v) magnitude.

End Str.

(** ** types.ts *)

Inductive ChainageType := CL | RD | LHS | RHS.

Module Row.

Record t := mk {
  id : string;
  chainage : string;
  chainageType : option ChainageType;
  bs : option float;
  is_ : option float; (* the source's [is], a reserved word here *)
  fs : option float;
  hoc : option float;
  rl : option float;
  d : option float;
  diff : option float;
  isCP : option bool;
  cpLabel : option string;
  cpRL : option float;
  cpHOC : option float;
  isClosingBM : option bool;
  closingBMName : option string;
  closingBMValue : option float
}.

(** Object spread with one overridden property: [{ ...r, p: v }]. *)
Definition with_id v r :=
  mk v (chainage r) (chainageType r) (bs r) (is_ r) (fs r) (hoc r) (rl r) (d r)
     (diff r) (isCP r) (cpLabel r) (cpRL r) (cpHOC r) (isClosingBM r)
     (closingBMName r) (closingBMValue r).
Definition with_chainage v r :=
  mk (id r) v (chainageType r) (bs r) (is_ r) (fs r) (hoc r) (rl r) (d r)
     (diff r) (isCP r) (cpLabel r) (cpRL r) (cpHOC r) (isClosingBM r)
     (closingBMName r) (closingBMValue r).
Definition with_chainageType v r :=
  mk (id r) (chainage r) v (bs r) (is_ r) (fs r) (hoc r) (rl r) (d r)
     (diff r) (isCP r) (cpLabel r) (cpRL r) (cpHOC r) (isClosingBM r)
     (closingBMName r) (closingBMValue r).
Definition with_bs v r :=
  mk (id r) (chainage r) (chainageType r) v (is_ r) (fs r) (hoc r) (rl r) (d r)
     (diff r) (isCP r) (cpLabel r) (cpRL r) (cpHOC r) (isClosingBM r)
     (closingBMName r) (closingBMValue r).
Definition with_is_ v r :=
  mk (id r) (chainage r) (chainageType r) (bs r) v (fs r) (hoc r) (rl r) (d r)
     (diff r) (isCP r) (cpLabel r) (cpRL r) (cpHOC r) (isClosingBM r)
     (closingBMName r) (closingBMValue r).
Definition with_fs v r :=
  mk (id r) (chainage r) (chainageType r) (bs r) (is_ r) v (hoc r) (rl r) (d r)
     (diff r) (isCP r) (cpLabel r) (cpRL r) (cpHOC r) (isClosingBM r)
     (closingBMName r) (closingBMValue r).
Definition with_hoc v r :=
  mk (id r) (chainage r) (chainageType r) (bs r) (is_ r) (fs r) v (rl r) (d r)
     (diff r) (isCP r) (cpLabel r) (cpRL r) (cpHOC r) (isClosingBM r)
     (closingBMName r) (closingBMValue r).
Definition with_rl v r :=
  mk (id r) (chainage r) (chainageType r) (bs r) (is_ r) (fs r) (hoc r) v (d r)
     (diff r) (isCP r) (cpLabel r) (cpRL r) (cpHOC r) (isClosingBM r)
     (closingBMName r) (closingBMValue r).
Definition with_d v r :=
  mk (id r) (chainage r) (chainageType r) (bs r) (is_ r) (fs r) (hoc r) (rl r) v
     (diff r) (isCP r) (cpLabel r) (cpRL r) (cpHOC r) (isClosingBM r)
     (closingBMName r) (closingBMValue r).
Definition with_diff v r :=
  mk (id r) (chainage r) (chainageType r) (bs r) (is_ r) (fs r) (hoc r) (rl r) (d r)
     v (isCP r) (cpLabel r) (cpRL r) (cpHOC r) (isClosingBM r)
     (closingBMName r) (closingBMValue r).
Definition with_isCP v r :=
  mk (id r) (chainage r) (chainageType r) (bs r) (is_ r) (fs r) (hoc r) (rl r) (d r)
     (diff r) v (cpLabel r) (cpRL r) (cpHOC r) (isClosingBM r)
     (closingBMName r) (closingBMValue r).
Definition with_cpLabel v r :=
  mk (id r) (chainage r) (chainageType r) (bs r) (is_ r) (fs r) (hoc r) (rl r) (d r)
     (diff r) (isCP r) v (cpRL r) (cpHOC r) (isClosingBM r)
     (closingBMName r) (closingBMValue r).
Definition with_cpRL v r :=
  mk (id r) (chainage r) (chainageType r) (bs r) (is_ r) (fs r) (hoc r) (rl r) (d r)
     (diff r) (isCP r) (cpLabel r) v (cpHOC r) (isClosingBM r)
     (closingBMName r) (closingBMValue r).
Definition with_cpHOC v r :=
  mk (id r) (chainage r) (chainageType r) (bs r) (is_ r) (fs r) (hoc r) (rl r) (d r)
     (diff r) (isCP r) (cpLabel r) (cpRL r) v (isClosingBM r)
     (closingBMName r) (closingBMValue r).

(** A row literal that names only [id], [chainage] and [chainageType]. *)
Definition blank (i c : string) (ty : option ChainageType) : t :=
  mk i c ty None None None None None None None None None None None None None None.

End Row.

Module Benchmark.
Record t := mk { name : string; rl : float }.
End Benchmark.

Module ChainagePoint.
Record t := mk {
  chainage : string;
  offset : float;
  displayName : string;
  chainageType : option ChainageType
}.
End ChainagePoint.

Module Project.

Record t := mk {
  id : string;
  title : string;
  layer : string;
  fromChainage : string;
  toChainage : string;
  chainageInterval : Z;
  pointsPerChainage : Z;
  pointPattern : option (list string);
  date : string;
  benchmark : option Benchmark.t;
  rows : list Row.t;
  createdAt : Z;
  updatedAt : Z
}.

(** [{ ...p, pointPattern: pattern }]. *)
Definition with_pointPattern pattern p :=
  mk (id p) (title p) (layer p) (fromChainage p) (toChainage p)
     (chainageInterval p) (pointsPerChainage p) pattern (date p)
     (benchmark p) (rows p) (createdAt p) (updatedAt p).

(** [{ ...p, rows: newRows }]. *)
Definition with_rows newRows p :=
  mk (id p) (title p) (layer p) (fromChainage p) (toChainage p)
     (chainageInterval p) (pointsPerChainage p) (pointPattern p) (date p)
     (benchmark p) newRows (createdAt p) (updatedAt p).

End Project.

(** ** calculations.ts *)

(** [calculateRL(row, hoc)]. *)
Definition calculateRL (row : Row.t) (hoc : option float) : option float :=
  if Js.falsy_opt hoc then None
  else
    match hoc, Row.is_ row, Row.fs row with
    | Some h, Some i, _ => Some (h - i)%float
    | Some h, None, Some f => Some (h - f)%float
    | _, _, _ => None
    end.

(** [calculateDiff(row)]. *)
Definition calculateDiff (row : Row.t) : option float :=
  match Row.d row, Row.rl row with
  | Some dv, Some r => Some (dv - r)%float
  | _, _ => None
  end.

(** The two variables [processRows] carries across the callback of [map]. *)
Record FoldState := { currentHOC : option float; currentBM : option float }.

(** The body of the callback of [rows.map] for a closing benchmark row. *)
Definition processClosing (index : nat) (st : FoldState) (row : Row.t) : Row.t :=
  match currentHOC st, Row.fs row with
  | Some h, Some f =>
      if (0 <? index)%nat then
        let newRow := Row.with_rl (Some (h - f)%float) row in
        match Row.closingBMValue row with
        | Some v =>
            let newRow := Row.with_d (Some v) newRow in
            Row.with_diff (Some (v - Js.or_else (Row.rl newRow) 0)%float) newRow
        | None => newRow
        end
      else row
  | _, _ => row
  end.

(** The callback for a change-point row: the row and the state after it. *)
Definition processCP (st : FoldState) (row : Row.t) : Row.t * FoldState :=
  let newRow :=
    match Row.cpRL row with
    | Some v => Row.with_rl (Some v) row
    | None => row
    end in
  let bm :=
    match Row.cpRL row with
    | Some v => Some v
    | None => currentBM st
    end in
  let h :=
    match Row.cpHOC row with
    | Some v => Some v
    | None => currentHOC st
    end in
  (newRow, {| currentHOC := h; currentBM := bm |}).

(** The callback for an ordinary row. *)
Definition processOrdinary (st : FoldState) (row : Row.t) : Row.t * FoldState :=
  let '(newRow, st') :=
    match Row.bs row with
    | Some b =>
        match currentBM st with
        | Some bm =>
            (Row.with_hoc (Some (bm + b)%float) row,
             {| currentHOC := Some (bm + b)%float; currentBM := currentBM st |})
        | None =>
            match currentHOC st with
            | Some h => (Row.with_hoc (Some h) row, st)
            | None => (row, st)
            end
        end
    | None =>
        match currentHOC st with
        | Some h => (Row.with_hoc (Some h) row, st)
        | None => (row, st)
        end
    end in
  let newRow :=
    match Row.hoc newRow with
    | Some _ =>
        match calculateRL newRow (Row.hoc newRow) with
        | Some r => Row.with_rl (Some r) newRow
        | None => newRow
        end
    | None => newRow
    end in
  let newRow :=
    match Row.rl newRow with
    | Some _ =>
        match calculateDiff newRow with
        | Some df => Row.with_diff (Some df) newRow
        | None => newRow
        end
    | None => newRow
    end in
  (newRow, st').

(** One call of the callback of [rows.map((row, index) => ...)]. *)
Definition processRow (index : nat) (st : FoldState) (row : Row.t)
  : Row.t * FoldState :=
  if Js.flag (Row.isClosingBM row) then (processClosing index st row, st)
  else if Js.flag (Row.isCP row) then processCP st row
  else processOrdinary st row.

(** [rows.map] from position [index] on, threading the two variables. *)
Fixpoint processFrom (index : nat) (st : FoldState) (rows : list Row.t)
  : list Row.t :=
  match rows with
  | [] => []
  | row :: rest =>
      let '(newRow, st') := processRow index st row in
      newRow :: processFrom (S index) st' rest
  end.

Definition initialState (benchmark : option Benchmark.t) : FoldState :=
  {| currentHOC := None; currentBM := option_map Benchmark.rl benchmark |}.

(** [processRows(rows, benchmark)]. *)
Definition processRows (rows : list Row.t) (benchmark : option Benchmark.t)
  : list Row.t :=
  processFrom 0 (initialState benchmark) rows.

(** [newRows.splice(i, 0, x)]. *)
Definition splice_in {A} (i : nat) (x : A) (l : list A) : list A :=
  take i l ++ x :: drop i l.

(** [newRows.splice(i, 1)]. *)
Definition splice_out {A} (i : nat) (l : list A) : list A :=
  take i l ++ drop (S i) l.

(** [rows.filter(r => r.isCP).length]. *)
Definition countCP (rows : list Row.t) : nat :=
  length (List.filter (fun r => Js.flag (Row.isCP r)) rows).

(** The label [`CP${String(cpNumber).padStart(2, '0')}`]. *)
Definition defaultCPLabel (rows : list Row.t) : string :=
  ("CP" ++ Str.padStart 2 "0" (Str.ofZ (Z.of_nat (countCP rows + 1))))%string.

(** [label || `CP${...}`]. *)
Definition cpLabelFor (label : option string) (rows : list Row.t) : string :=
  match label with
  | Some l => Str.or_else l (defaultCPLabel rows)
  | None => defaultCPLabel rows
  end.

(** [pointRow]: [{ ...originalRow, id: `row-${Date.now()}-pushed`, bs: newBS,
    fs: undefined, is: undefined, hoc: undefined, rl: undefined,
    diff: undefined }]. *)
Definition pointRow (now : Z) (newBS : float) (originalRow : Row.t) : Row.t :=
  Row.with_diff None (Row.with_rl None (Row.with_hoc None
    (Row.with_is_ None (Row.with_fs None (Row.with_bs (Some newBS)
      (Row.with_id ("row-" ++ Str.ofZ now ++ "-pushed")%string
         originalRow)))))).

(** [updatedFsRowWithCP]: [{ ...{ ...originalRow, bs: newBS, chainage: '' },
    isCP: true, cpLabel, cpRL, cpHOC: newHOC, chainage: cpLabel }]. *)
Definition updatedFsRowWithCP (cpLabel : string) (cpRL newHOC newBS : float)
    (originalRow : Row.t) : Row.t :=
  let updatedFsRow :=
    Row.with_chainage "" (Row.with_bs (Some newBS) originalRow) in
  Row.with_chainage cpLabel (Row.with_cpHOC (Some newHOC)
    (Row.with_cpRL (Some cpRL) (Row.with_cpLabel (Some cpLabel)
      (Row.with_isCP (Some true) updatedFsRow)))).

(** [addChangePoint(rows, fsRowIndex, newBS, label, benchmark)]; [now] is the
    reading of [Date.now()]. *)
Definition addChangePoint (now : Z) (rows : list Row.t) (fsRowIndex : nat)
    (newBS : float) (label : option string) (benchmark : option Benchmark.t)
  : list Row.t :=
  let processedRows := processRows rows benchmark in
  match processedRows !! fsRowIndex with
  | None => rows
  | Some fsRow =>
      match Row.fs fsRow with
      | None => rows
      | Some fsv =>
          let oldHOC := Row.hoc fsRow in
          if Js.falsy_opt oldHOC then rows
          else
            match oldHOC, rows !! fsRowIndex with
            | Some h, Some originalRow =>
                let cpRL := (h - fsv)%float in
                let newHOC := (h - fsv + newBS)%float in
                let cpLabel := cpLabelFor label rows in
                let newRows :=
                  <[fsRowIndex :=
                      updatedFsRowWithCP cpLabel cpRL newHOC newBS originalRow]>
                    rows in
                splice_in (fsRowIndex + 1) (pointRow now newBS originalRow) newRows
            | _, _ => rows (* not reached: the two arrays have one length *)
            end
      end
  end.

(** The row [deleteChangePoint] writes back: [{ ...cpRow, bs: undefined,
    isCP: false, cpLabel: undefined, cpRL: undefined, cpHOC: undefined,
    chainage }]. *)
Definition restoredFsRow (cpRow : Row.t) (chainage : string) : Row.t :=
  Row.with_chainage chainage (Row.with_cpHOC None (Row.with_cpRL None
    (Row.with_cpLabel None (Row.with_isCP (Some false)
      (Row.with_bs None cpRow))))).

(** [deleteChangePoint(rows, cpRowIndex)]. *)
Definition deleteChangePoint (rows : list Row.t) (cpRowIndex : nat)
  : list Row.t :=
  match rows !! cpRowIndex with
  | None => rows
  | Some cpRow =>
      if negb (Js.flag (Row.isCP cpRow)) then rows
      else
        let pushedPointRowIndex := (cpRowIndex + 1)%nat in
        if (length rows <=? pushedPointRowIndex)%nat then rows
        else
          match rows !! pushedPointRowIndex with
          | None => <[cpRowIndex := restoredFsRow cpRow ""]> rows
          | Some pushedPointRow =>
              if negb (Str.includes "-pushed" (Row.id pushedPointRow)) then
                <[cpRowIndex := restoredFsRow cpRow ""]> rows
              else
                let newRows :=
                  <[cpRowIndex :=
                      restoredFsRow cpRow
                        (Str.or_else (Row.chainage pushedPointRow) "")]> rows in
                splice_out pushedPointRowIndex newRows
          end
  end.

(** ** chainage.ts *)

(** [parseChainage(chainage)], on whole numbers: the value the code
    computes as long as every number in it stays within 2^53. *)
Definition parseChainage (chainage : string) : Z :=
  match Str.split "+" chainage with
  | [km; m] =>
      let km := default 0 (Str.parseInt km) in
      let m := default 0 (Str.parseInt m) in
      km * 1000 + m
  | _ => 0
  end.

(** [formatChainage(meters)] for a whole number of metres within 2^53:
    [Math.floor] rounds down and [%] keeps the sign of the dividend. *)
Definition formatChainage (meters : Z) : string :=
  let km := meters / 1000 in
  let m := Z.rem meters 1000 in
  (Str.ofZ km ++ "+" ++ Str.padStart 3 "0" (Str.ofZ m))%string.

(** A whole number as a binary64 value. *)
Definition floatOfZ (n : Z) : float :=
  if n <? 0 then (- PrimFloat.of_uint63 (Uint63.of_Z (- n)))%float
  else PrimFloat.of_uint63 (Uint63.of_Z n).

Section Generator.

(** [String(x)] for a number [x] that need not be whole; the generator
    calls it only on the offsets of a layout of 2 or of more than 3
    points. *)
Variable numberToString : float -> string.

(** The entry [pointPattern.forEach] pushes for one label. *)
Definition patternPoint (chainageStr rawLabel : string) : ChainagePoint.t :=
  let label := Str.trim rawLabel in
  let upper := Str.toUpperCase label in
  let isCL := (String.eqb upper "CL" || Str.endsWith " CL" upper)%bool in
  let isRD := Str.startsWith "RD" upper in
  let isLHS := Str.includes "LHS" upper in
  let isRHS := Str.includes "RHS" upper in
  ChainagePoint.mk chainageStr 0%float
    (if isCL then (chainageStr ++ " CL")%string else label)
    (if isCL then Some CL
     else if isRD then Some RD
     else if isLHS then Some LHS
     else if isRHS then Some RHS
     else None).

(** The entries one turn of the loop pushes, at the distance [m]. *)
Definition stationPoints (pointsPerChainage : Z)
    (pointPattern : option (list string)) (m : Z) : list ChainagePoint.t :=
  let offset := if 1 <? pointsPerChainage then 3.5%float else 0%float in
  let chainageStr := formatChainage m in
  match pointPattern with
  | Some (label :: labels) => map (patternPoint chainageStr) (label :: labels)
  | _ =>
      if pointsPerChainage =? 1 then
        [ChainagePoint.mk chainageStr 0%float chainageStr None]
      else if pointsPerChainage =? 3 then
        (* [`${offset} LHS`] and [`${offset} RHS`]: here [offset] is 3.5 *)
        [ChainagePoint.mk chainageStr (- offset)%float "3.5 LHS" (Some LHS);
         ChainagePoint.mk chainageStr 0%float (chainageStr ++ " CL")%string
           (Some CL);
         ChainagePoint.mk chainageStr offset "3.5 RHS" (Some RHS)]
      else
        let spacing :=
          (offset * 2 / floatOfZ (pointsPerChainage - 1))%float in
        map (fun i =>
               let pointOffset :=
                 (- offset + floatOfZ (Z.of_nat i) * spacing)%float in
               ChainagePoint.mk chainageStr pointOffset
                 (if PrimFloat.eqb pointOffset 0%float then chainageStr
                  else numberToString (PrimFloat.abs pointOffset))
                 None)
            (seq 0 (Z.to_nat pointsPerChainage))
  end.

(** [for (let m = fromM; m <= toM; m += interval) { ... }]: [fuel] bounds
    the number of turns, and [None] says the bound was reached with the
    loop still running.  The step is that of whole numbers, which is the
    code's as long as [m] stays within 2^53. *)
Fixpoint stationLoop (fuel : nat) (body : Z -> list ChainagePoint.t)
    (m toM interval : Z) : option (list ChainagePoint.t) :=
  if m <=? toM then
    match fuel with
    | O => None
    | S fuel' =>
        option_map (app (body m))
          (stationLoop fuel' body (m + interval) toM interval)
    end
  else Some [].

(** [generateChainagePoints(fromChainage, toChainage, pointsPerChainage,
    interval = 20, pointPattern)]. *)
Definition generateChainagePoints (fuel : nat) (fromChainage toChainage : string)
    (pointsPerChainage : Z) (interval : option Z)
    (pointPattern : option (list string)) : option (list ChainagePoint.t) :=
  let interval := default 20 interval in
  let fromM := parseChainage fromChainage in
  let toM := parseChainage toChainage in
  stationLoop fuel (stationPoints pointsPerChainage pointPattern)
    fromM toM interval.

(** ** storage.ts *)

(** [generateTableRows(project)]; [clock k] is the reading of the [k]-th
    call of [Date.now()]. *)
Definition generateTableRows (fuel : nat) (clock : nat -> Z)
    (project : Project.t) : option (list Row.t) :=
  match
    generateChainagePoints fuel (Project.fromChainage project)
      (Project.toChainage project) (Project.pointsPerChainage project)
      (Some (Project.chainageInterval project)) (Project.pointPattern project)
  with
  | None => None
  | Some points =>
      let bmRow := Row.blank ("row-bm-" ++ Str.ofZ (clock 0%nat))%string "" None in
      let chainageRows :=
        imap (fun index point =>
                Row.blank
                  ("row-" ++ Str.ofZ (clock (S index)) ++ "-"
                     ++ Str.ofZ (Z.of_nat index))%string
                  (ChainagePoint.displayName point)
                  (ChainagePoint.chainageType point))
             points in
      Some (bmRow :: chainageRows)
  end.

(** ** page.tsx: applying a point pattern *)

(** [patternText.split(',').map(p => p.trim()).filter(p => p.length > 0)]. *)
Definition parsePattern (patternText : string) : list string :=
  List.filter (fun p => (0 <? String.length p)%nat)
    (map Str.trim (Str.split "," patternText)).

(** [{ ...r, chainage: p.chainage, chainageType: p.chainageType }]. *)
Definition relabelRow (p r : Row.t) : Row.t :=
  Row.with_chainageType (Row.chainageType p)
    (Row.with_chainage (Row.chainage p) r).

(** [{ id: p.id, chainage: p.chainage, chainageType: p.chainageType }]. *)
Definition appendedRow (p : Row.t) : Row.t :=
  Row.blank (Row.id p) (Row.chainage p) (Row.chainageType p).

(** [existingMiddle.map(r => ...)] with the counter [pointIndex] it
    advances: the relabelled rows and the counter at the end. *)
Fixpoint relabel (newPointRows : list Row.t) (pointIndex : nat)
    (existingMiddle : list Row.t) : list Row.t * nat :=
  match existingMiddle with
  | [] => ([], pointIndex)
  | r :: rest =>
      if Js.flag (Row.isCP r) then
        let '(out, k) := relabel newPointRows pointIndex rest in (r :: out, k)
      else
        match newPointRows !! pointIndex with
        | None =>
            let '(out, k) := relabel newPointRows pointIndex rest in
            (r :: out, k)
        | Some p =>
            let '(out, k) := relabel newPointRows (pointIndex + 1) rest in
            (relabelRow p r :: out, k)
        end
  end.

(** [r => r.isClosingBM] and [r => !r.isClosingBM]. *)
Definition isClosing (r : Row.t) : bool := Js.flag (Row.isClosingBM r).
Definition notClosing (r : Row.t) : bool := negb (isClosing r).

(** The rows [handleApplyPattern] stores, from the rows of the project and
    the regenerated ones. *)
Definition applyPatternRows (existingRows regenerated : list Row.t)
  : list Row.t :=
  let bmRow :=
    match existingRows !! 0%nat with
    | Some r => Some r
    | None => regenerated !! 0%nat
    end in
  let closingRow := List.find isClosing existingRows in
  let existingMiddle := List.filter notClosing (drop 1 existingRows) in
  let newPointRows := drop 1 regenerated in
  let '(nextMiddle, pointIndex) := relabel newPointRows 0 existingMiddle in
  let appended := map appendedRow (drop pointIndex newPointRows) in
  let baseRows := option_list bmRow ++ nextMiddle ++ appended in
  match closingRow with
  | Some c => List.filter notClosing baseRows ++ [c]
  | None => baseRows
  end.

(** [handleApplyPattern] on a loaded project: the project it stores, the
    project itself when the pattern text holds no label. *)
Definition handleApplyPattern (fuel : nat) (clock : nat -> Z)
    (project : Project.t) (patternText : string) : option Project.t :=
  let parsed := parsePattern patternText in
  match parsed with
  | [] => Some project
  | _ =>
      match
        generateTableRows fuel clock
          (Project.with_pointPattern (Some parsed) project)
      with
      | None => None
      | Some regenerated =>
          let newRows := applyPatternRows (Project.rows project) regenerated in
          Some (Project.with_rows newRows
                  (Project.with_pointPattern (Some parsed) project))
      end
  end.

End Generator.

(** ** Notions used to state the properties *)

(** The state the fold has reached after the rows of [rows], read from
    position [index] on. *)
Fixpoint stateAfter (index : nat) (st : FoldState) (rows : list Row.t)
  : FoldState :=
  match rows with
  | [] => st
  | row :: rest => stateAfter (S index) (snd (processRow index st row)) rest
  end.

(** Reduction copies a row and writes only [hoc], [rl], [d] and [diff]. *)
Definition sameEntries (r row : Row.t) : Prop :=
  Row.id r = Row.id row /\ Row.chainage r = Row.chainage row /\
  Row.chainageType r = Row.chainageType row /\
  Row.bs r = Row.bs row /\ Row.is_ r = Row.is_ row /\ Row.fs r = Row.fs row /\
  Row.isCP r = Row.isCP row /\ Row.isClosingBM r = Row.isClosingBM row.

(** A row that is not a change point and carries no change-point data. *)
Definition noChangePoint (r : Row.t) : Prop :=
  Js.flag (Row.isCP r) = false /\ Row.cpLabel r = None /\
  Row.cpRL r = None /\ Row.cpHOC r = None.

(** A number that [x || 0] leaves alone: neither [NaN] nor [-0]. *)
Definition keptByOrZero (x : float) : Prop :=
  Js.or_else (Some x) 0 = x.

(** The distances [fromM], [fromM + interval], ... that do not pass [toM]. *)
Definition stationDistances (fromM toM interval : Z) : list Z :=
  if fromM <=? toM then
    map (fun k => fromM + Z.of_nat k * interval)
      (seq 0 (Z.to_nat ((toM - fromM) / interval + 1)))
  else [].

(** A decimal digit, and a string of decimal digits. *)
Definition isDigit (c : ascii) : bool :=
  match DecimalString.uint_of_char c (Some Decimal.Nil) with
  | Some _ => true
  | None => false
  end.

Fixpoint allDigits (s : string) : bool :=
  match s with
  | String c s' => isDigit c && allDigits s'
  | EmptyString => true
  end.

(** A numeral without its redundant leading zeros. *)
Fixpoint stripZeros (s : string) : string :=
  match s with
  | String "0" (String _ _ as rest) => stripZeros rest
  | _ => s
  end.

(** The normal form of a chainage string, in the words of the
    specification: kilometres without redundant leading zeros, metres padded
    with zeros to three digits. *)
Definition normalizeChainage (s : string) : string :=
  match Str.split "+" s with
  | [km; m] => (stripZeros km ++ "+" ++ Str.padStart 3 "0" m)%string
  | _ => s
  end.

(** [r => !r.isCP]: the rows a new pattern may relabel. *)
Definition notCP (r : Row.t) : bool := negb (Js.flag (Row.isCP r)).

(** The number of rows before position [j] that are not change points. *)
Definition ordinaryBefore (j : nat) (middle : list Row.t) : nat :=
  length (List.filter notCP (take j middle)).

(** Two rows that differ at most in their label and station type. *)
Definition sameButLabel (r' r : Row.t) : Prop :=
  Row.id r' = Row.id r /\
  Row.bs r' = Row.bs r /\ Row.is_ r' = Row.is_ r /\ Row.fs r' = Row.fs r /\
  Row.hoc r' = Row.hoc r /\ Row.rl r' = Row.rl r /\
  Row.d r' = Row.d r /\ Row.diff r' = Row.diff r /\
  Row.isCP r' = Row.isCP r /\ Row.cpLabel r' = Row.cpLabel r /\
  Row.cpRL r' = Row.cpRL r /\ Row.cpHOC r' = Row.cpHOC r /\
  Row.isClosingBM r' = Row.isClosingBM r /\
  Row.closingBMName r' = Row.closingBMName r /\
  Row.closingBMValue r' = Row.closingBMValue r.

(** ** Field books used as examples *)

Module Example.

Local Open Scope string_scope.
Local Open Scope float_scope.

Definition bmRow (b : float) : Row.t :=
  Row.with_bs (Some b) (Row.blank "row-bm-1" "" None).
Definition isRow (v : float) : Row.t :=
  Row.with_is_ (Some v) (Row.blank "row-1-0" "0+000 CL" (Some CL)).
Definition fsRow (v : float) : Row.t :=
  Row.with_fs (Some v) (Row.blank "row-1-1" "3.5 RHS" (Some RHS)).
Definition bench (v : float) : option Benchmark.t :=
  Some (Benchmark.mk "BM1" v).

(** The survey of the end-to-end scenario: benchmark RL 100, then
    bs = 1.5, is = 1.0, fs = 2.0. *)
Definition survey : list Row.t := [bmRow 1.5; isRow 1.0; fsRow 2.0].

Definition closingRow : Row.t :=
  Row.mk "close-bm-1" "" None None None (Some 0.8) None None None None None
    None None None (Some true) (Some "TBM2") (Some 99.9).

(** A change point with nothing after it. *)
Definition lastCP : Row.t :=
  Row.mk "row-1-1" "CP01" (Some RHS) (Some 1.2) None (Some 2.0) None None None
    None (Some true) (Some "CP01") (Some 99.5) (Some 100.7) None None None.

(** A change point in the middle of a table, as [addChangePoint] leaves
    it. *)
Definition midCP : Row.t :=
  Row.mk "row-1-2" "CP01" (Some CL) (Some 1.2) None (Some 2.0) None None None
    None (Some true) (Some "CP01") (Some 99.5) (Some 100.7) None None None.

(** A project from "0+000" to "0+020" every 20, with readings entered, a
    change point and a closing row. *)
Definition project : Project.t :=
  Project.mk "project-1" "LEVEL CHECK" "SUBGRADE" "0+000" "0+020" 20 3
    (Some ["LHS"; "CL"; "RHS"]) "2024-01-01" (bench 100)
    [bmRow 1.5;
     Row.with_is_ (Some 1.0) (Row.blank "row-1-0" "LHS" (Some LHS));
     midCP;
     Row.with_d (Some 99.0)
       (Row.with_fs (Some 0.7) (Row.blank "row-1-3" "RHS" (Some RHS)));
     Row.blank "row-1-4" "LHS" (Some LHS);
     closingRow]
    1 1.

Definition clock (k : nat) : Z := 1700 + Z.of_nat k.

(** The examples never reach the one call of [String(x)]; this stands in
    for it. *)
Definition noNumberToString (x : float) : string := "".

End Example.

(** * More of the code *)

(** ** calculations.ts: the helper for the height of collimation *)

(** [calculateHOC(row, previousHOC, benchmark)]; [previousHOC] is a number
    or [null]. *)
Definition calculateHOC (row : Row.t) (previousHOC : option float)
    (benchmark : option Benchmark.t) : option float :=
  match Row.bs row with
  | None => None
  | Some b =>
      if negb (Js.truthy b) then None
      else
        match previousHOC, benchmark with
        | None, Some bm => Some (Benchmark.rl bm + b)%float
        | Some h, _ => Some (h + b)%float
        | None, None => None
        end
  end.

(** ** page.tsx: the effect that keeps the closing row *)

(** The loop that collects [closingIndexes], from position [i] on. *)
Fixpoint closingIndexesFrom (i : nat) (rows : list Row.t) : list nat :=
  match rows with
  | [] => []
  | r :: rest =>
      if isClosing r then i :: closingIndexesFrom (S i) rest
      else closingIndexesFrom (S i) rest
  end.

(** [{ id: `close-bm-${Date.now()}`, chainage: '', isClosingBM: true }]. *)
Definition freshClosingRow (now : Z) : Row.t :=
  Row.mk ("close-bm-" ++ Str.ofZ now)%string "" None None None None None None
    None None None None None None (Some true) None None.

(** The effect on the rows of the project: [None] when it returns without
    an update, and otherwise the rows it hands to [updateProject]. *)
Definition closingRowEffect (now : Z) (rows : list Row.t)
  : option (list Row.t) :=
  let closingIndexes := closingIndexesFrom 0 rows in
  let needsAdd := (length closingIndexes =? 0)%nat in
  let needsMove :=
    ((0 <? length closingIndexes)%nat &&
     negb (match last closingIndexes with
           | Some i => Z.of_nat i =? Z.of_nat (length rows) - 1
           | None => false
           end))%bool in
  let needsDedup := (1 <? length closingIndexes)%nat in
  if (negb needsAdd && negb needsMove && negb needsDedup)%bool then None
  else
    let closingRow :=
      if needsAdd then Some (freshClosingRow now)
      else
        match last closingIndexes with
        | Some i => rows !! i
        | None => None
        end in
    Some (List.filter notClosing rows ++ option_list closingRow).

(** ** Notions used to state the further properties *)

(** Reduction writes [hoc], [rl] and [diff], and [d] on a closing row;
    every other field of a row is an entry it leaves alone. *)
Definition sameInputs (r row : Row.t) : Prop :=
  Row.id r = Row.id row /\ Row.chainage r = Row.chainage row /\
  Row.chainageType r = Row.chainageType row /\
  Row.bs r = Row.bs row /\ Row.is_ r = Row.is_ row /\ Row.fs r = Row.fs row /\
  Row.isCP r = Row.isCP row /\ Row.cpLabel r = Row.cpLabel row /\
  Row.cpRL r = Row.cpRL row /\ Row.cpHOC r = Row.cpHOC row /\
  Row.isClosingBM r = Row.isClosingBM row /\
  Row.closingBMName r = Row.closingBMName row /\
  Row.closingBMValue r = Row.closingBMValue row /\
  (isClosing row = false -> Row.d r = Row.d row).

(** Exactly one closing row, and it is the last row. *)
Definition closedAtEnd (rows : list Row.t) : Prop :=
  exists pre c,
    rows = pre ++ [c] /\ isClosing c = true /\
    Forall (fun r => notClosing r = true) pre.

(** Two rows that carry the same label: [chainage] and [chainageType]. *)
Definition sameLabels (p q : Row.t) : Prop :=
  Row.chainage p = Row.chainage q /\ Row.chainageType p = Row.chainageType q.

(** ** storage.ts: the stored projects *)

(** The functions of storage.ts work on the array of projects that
    [getAllProjects()] reads and that [localStorage.setItem] takes back as
    JSON.  The array is the state passed here; its text in the browser's
    storage is not modelled. *)

(** [{ ...project, updatedAt: now }]. *)
Definition with_updatedAt (now : Z) (p : Project.t) : Project.t :=
  Project.mk (Project.id p) (Project.title p) (Project.layer p)
    (Project.fromChainage p) (Project.toChainage p)
    (Project.chainageInterval p) (Project.pointsPerChainage p)
    (Project.pointPattern p) (Project.date p) (Project.benchmark p)
    (Project.rows p) (Project.createdAt p) now.

(** [l.findIndex(f)], with [None] for -1. *)
Fixpoint findIndex {A} (f : A -> bool) (l : list A) : option nat :=
  match l with
  | [] => None
  | x :: rest => if f x then Some 0%nat else option_map S (findIndex f rest)
  end.

(** [getProject(id)]: [projects.find(p => p.id === id) || null]. *)
Definition getProject (projects : list Project.t) (id : string)
  : option Project.t :=
  List.find (fun p => String.eqb (Project.id p) id) projects.

(** [saveProject(project)]: the array it stores; [now] is the reading of
    [Date.now()]. *)
Definition saveProject (now : Z) (projects : list Project.t)
    (project : Project.t) : list Project.t :=
  let index :=
    findIndex (fun p => String.eqb (Project.id p) (Project.id project))
      projects in
  let updatedProject := with_updatedAt now project in
  match index with
  | Some index => <[index := updatedProject]> projects
  | None => projects ++ [updatedProject]
  end.

(** [deleteProject(id)]: the array it stores. *)
Definition deleteProject (projects : list Project.t) (id : string)
  : list Project.t :=
  List.filter (fun p => negb (String.eqb (Project.id p) id)) projects.

(** ** page.tsx: removing a change point from the table on the screen *)

(** [handleDeleteCP(cpRowIndex)] on a loaded project: the project it stores,
    [None] when it returns without an update.  [confirmed] is the answer to
    [window.confirm]. *)
Definition handleDeleteCP (confirmed : bool) (project : Project.t)
    (cpRowIndex : nat) : option Project.t :=
  let processedRows :=
    processRows (Project.rows project) (Project.benchmark project) in
  match processedRows !! cpRowIndex with
  | None => None
  | Some cpRow =>
      if negb (Js.flag (Row.isCP cpRow)) then None
      else if negb confirmed then None
      else
        match
          findIndex (fun r => String.eqb (Row.id r) (Row.id cpRow))
            (Project.rows project)
        with
        | None => None
        | Some originalIndex =>
            Some (Project.with_rows
                    (deleteChangePoint (Project.rows project) originalIndex)
                    project)
        end
  end.


Section Creation.

Variable numberToString : float -> string.

(** [createProject(title, layer, fromChainage, toChainage, chainageInterval,
    pointsPerChainage, pointPattern)]: the project it returns and the array
    it stores.  [clock k] is the reading of the [k]-th call of [Date.now()]
    and [today] the date [new Date().toISOString().split('T')[0]]. *)
Definition createProject (fuel : nat) (clock : nat -> Z) (today : string)
    (projects : list Project.t)
    (title layer fromChainage toChainage : string)
    (chainageInterval pointsPerChainage : Z)
    (pointPattern : option (list string))
  : option (Project.t * list Project.t) :=
  let project :=
    Project.mk ("project-" ++ Str.ofZ (clock 0%nat))%string title layer
      fromChainage toChainage chainageInterval pointsPerChainage
      (Some match pointPattern with
            | Some (label :: labels) => label :: labels
            | _ => ["3.5 LHS"; "CL"; "3.5 RHS"]%string
            end)
      today None [] (clock 1%nat) (clock 2%nat) in
  match generateTableRows numberToString fuel (fun k => clock (3 + k)%nat)
          project with
  | None => None
  | Some rows =>
      let project := Project.with_rows rows project in
      Some (project,
            saveProject (clock (3 + length rows)%nat) projects project)
  end.


End Creation.

(** ** Whole numbers and binary64 *)

(** The definitions above compute chainages in [Z].  The code computes them
    in binary64, which holds every whole number up to 2^53 and adds,
    multiplies and compares such numbers exactly as long as the result is
    again within 2^53.  The statements on the arithmetic of chainages name
    this range. *)
Definition maxExact : Z := 2 ^ 53.

(** Every number [parseChainage] computes on [s] is within that range. *)
Definition exactChainage (s : string) : Prop :=
  match Str.split "+" s with
  | [km; m] =>
      let km := default 0 (Str.parseInt km) in
      let m := default 0 (Str.parseInt m) in
      Z.abs km <= maxExact /\ Z.abs (km * 1000) <= maxExact /\
      Z.abs m <= maxExact /\ Z.abs (km * 1000 + m) <= maxExact
  | _ => True
  end.

(** The number of characters [c] in [s]. *)
Fixpoint countChar (c : ascii) (s : string) : nat :=
  match s with
  | EmptyString => 0%nat
  | String x s' => ((if Ascii.eqb x c then 1 else 0) + countChar c s')%nat
  end.

(** The number of points of a station: one for each label of the pattern
    and, without a pattern, as many as the count says, none when the count
    is not positive. *)
Definition pointsOfStation (pointsPerChainage : Z)
    (pointPattern : option (list string)) : nat :=
  match pointPattern with
  | Some (label :: labels) => length (label :: labels)
  | _ => Z.to_nat pointsPerChainage
  end.

(** ** chainage.ts as it computes, in binary64 *)

(** Beyond 2^53 the code rounds.  Here are the operations of JavaScript on
    numbers that [parseChainage] and [formatChainage] use, and the two
    functions over them. *)
Module Number.

(** The number nearest to the whole number [n], ties to even: the value
    [parseInt] returns for a numeral of value [n]. *)
Definition ofZ (n : Z) : float :=
  SF2Prim (SpecFloat.binary_normalize FloatOps.prec FloatOps.emax n 0 false).

(** [Math.floor(x)].  A number [m * 2^e] with [0 <= e] is whole. *)
Definition floor (x : float) : float :=
  match Prim2SF x with
  | SpecFloat.S754_finite s m e =>
      if 0 <=? e then x
      else
        let q := Z.shiftr (Z.pos m) (- e) in
        if s then
          if Z.shiftl q (- e) =? Z.pos m then (- ofZ q)%float
          else (- ofZ (q + 1))%float
        else ofZ q
  | _ => x
  end.

(** [x % y]: the remainder of the division that truncates, with the sign of
    [x]; it is a binary64 number, so that nothing is rounded. *)
Definition rem (x y : float) : float :=
  match Prim2SF x, Prim2SF y with
  | SpecFloat.S754_nan, _ | _, SpecFloat.S754_nan => nan
  | SpecFloat.S754_infinity _, _ => nan
  | _, SpecFloat.S754_zero _ => nan
  | SpecFloat.S754_zero _, _ => x
  | SpecFloat.S754_finite _ _ _, SpecFloat.S754_infinity _ => x
  | SpecFloat.S754_finite sx mx ex, SpecFloat.S754_finite _ my ey =>
      let e := Z.min ex ey in
      let r := Z.rem (Z.pos mx * 2 ^ (ex - e)) (Z.pos my * 2 ^ (ey - e)) in
      let v :=
        SF2Prim
          (SpecFloat.binary_normalize FloatOps.prec FloatOps.emax r e false) in
      if sx then (if r =? 0 then neg_zero else (- v)%float) else v
  end.

(** The whole number that [x] is, when it is one of magnitude below 2^53. *)
Definition whole (x : float) : option Z :=
  match Prim2SF x with
  | SpecFloat.S754_zero _ => Some 0
  | SpecFloat.S754_finite s m e =>
      let n :=
        if 0 <=? e then Some (Z.pos m * 2 ^ e)
        else
          let q := Z.shiftr (Z.pos m) (- e) in
          if Z.shiftl q (- e) =? Z.pos m then Some q else None in
      match n with
      | Some n =>
          if n <? maxExact then Some (if s then - n else n) else None
      | None => None
      end
  | _ => None
  end.

End Number.

(** [parseInt(s) || 0]. *)
Definition parseIntOr0 (s : string) : float :=
  match Str.parseInt s with
  | Some v => Number.ofZ v
  | None => 0%float
  end.

(** [parseChainage(chainage)], in binary64. *)
Definition parseChainage64 (chainage : string) : float :=
  match Str.split "+" chainage with
  | [km; m] =>
      let km := parseIntOr0 km in
      let m := parseIntOr0 m in
      (km * 1000 + m)%float
  | _ => 0%float
  end.

Section Chainage64.

(** [String(x)] for a number that is not a whole number below 2^53. *)
Variable numberToString : float -> string.

(** [String(x)]: a whole number below 2^53 is written with all its
    digits, and -0 as "0". *)
Definition toString (x : float) : string :=
  match Number.whole x with
  | Some n => Str.ofZ n
  | None => numberToString x
  end.

(** [formatChainage(meters)], in binary64. *)
Definition formatChainage64 (meters : float) : string :=
  let km := Number.floor (meters / 1000) in
  let m := Number.rem meters 1000 in
  (toString km ++ "+" ++ Str.padStart 3 "0" (toString m))%string.

End Chainage64.

(** * Properties *)

(** ** The fold of [processRows] *)

Section ReductionFacts.

Local Open Scope nat_scope.

Lemma length_processFrom index st rows :
  length (processFrom index st rows) = length rows.
Proof.
  revert index st; induction rows as [|row rest IH]; intros index st; simpl.
  - reflexivity.
  - destruct (processRow index st row) as [newRow st']. simpl. now rewrite IH.
Qed.

Lemma length_processRows rows benchmark :
  length (processRows rows benchmark) = length rows.
Proof. apply length_processFrom. Qed.

Lemma processFrom_app index st pre post :
  processFrom index st (pre ++ post) =
  processFrom index st pre ++
  processFrom (index + length pre) (stateAfter index st pre) post.
Proof.
  revert index st; induction pre as [|row rest IH]; intros index st; simpl.
  - now rewrite Nat.add_0_r.
  - destruct (processRow index st row) as [newRow st']. simpl.
    rewrite IH. now rewrite Nat.add_succ_r.
Qed.

Lemma stateAfter_app index st pre post :
  stateAfter index st (pre ++ post) =
  stateAfter (index + length pre) (stateAfter index st pre) post.
Proof.
  revert index st; induction pre as [|row rest IH]; intros index st; simpl.
  - now rewrite Nat.add_0_r.
  - rewrite IH. now rewrite Nat.add_succ_r.
Qed.

(** The row [map] returns at a position is the callback applied to the row
    there, in the state the rows before it have left. *)
Lemma processFrom_lookup index st pre row post :
  processFrom index st (pre ++ row :: post) !! length pre =
  Some (fst (processRow (index + length pre) (stateAfter index st pre) row)).
Proof.
  rewrite processFrom_app.
  rewrite lookup_app_r by (rewrite length_processFrom; lia).
  rewrite length_processFrom, Nat.sub_diag. simpl.
  now destruct (processRow _ _ row).
Qed.

Lemma processRows_lookup rows benchmark i orig :
  rows !! i = Some orig ->
  processRows rows benchmark !! i =
  Some (fst (processRow i
               (stateAfter 0 (initialState benchmark) (take i rows)) orig)).
Proof.
  intros Ho.
  assert (Hi : i < length rows) by (eapply lookup_lt_Some; eauto).
  pose proof (processFrom_lookup 0 (initialState benchmark) (take i rows)
                orig (drop (S i) rows)) as H.
  rewrite (take_drop_middle rows i orig Ho) in H.
  rewrite length_take, Nat.min_l in H by lia.
  exact H.
Qed.

Local Ltac same := unfold sameEntries; simpl; repeat split; reflexivity.

Lemma processOrdinary_sameEntries st row :
  sameEntries (fst (processOrdinary st row)) row.
Proof.
  unfold processOrdinary.
  destruct (Row.bs row), (currentBM st), (currentHOC st); simpl;
    repeat match goal with
    | |- context [calculateRL ?r ?h] => destruct (calculateRL r h); simpl
    | |- context [calculateDiff ?r] => destruct (calculateDiff r); simpl
    | |- context [match Row.hoc row with _ => _ end] =>
        destruct (Row.hoc row); simpl
    | |- context [match Row.rl row with _ => _ end] =>
        destruct (Row.rl row); simpl
    end; same.
Qed.

Lemma processRow_sameEntries index st row :
  sameEntries (fst (processRow index st row)) row.
Proof.
  unfold processRow.
  destruct (Js.flag (Row.isClosingBM row)); [|destruct (Js.flag (Row.isCP row))].
  - unfold processClosing.
    destruct (currentHOC st), (Row.fs row), (0 <? index),
      (Row.closingBMValue row); same.
  - unfold processCP. destruct (Row.cpRL row); same.
  - apply processOrdinary_sameEntries.
Qed.

(** What the callback does on an ordinary row whose derived fields are still
    unset, whenever the height of collimation it arrives at is truthy: the
    rules of the reduction for [hoc], [rl] and [diff], and the state handed
    to the next row. *)
Lemma processOrdinary_truthy st row h :
  Row.hoc row = None -> Row.rl row = None -> Row.diff row = None ->
  match Row.bs row, currentBM st with
  | Some b, Some bm => Some (bm + b)%float
  | _, _ => currentHOC st
  end = Some h ->
  Js.truthy h = true ->
  let r := fst (processOrdinary st row) in
  let st' := snd (processOrdinary st row) in
  Row.hoc r = Some h /\
  Row.rl r =
    match Row.is_ row, Row.fs row with
    | Some i, _ => Some (h - i)%float
    | None, Some f => Some (h - f)%float
    | None, None => None
    end /\
  Row.diff r =
    match Row.d row, Row.rl r with
    | Some dv, Some v => Some (dv - v)%float
    | _, _ => None
    end /\
  currentBM st' = currentBM st /\
  currentHOC st' =
    match Row.bs row, currentBM st with
    | Some b, Some bm => Some h
    | _, _ => currentHOC st
    end.
Proof.
  intros Hh Hr Hd Hhoc Ht.
  unfold processOrdinary, calculateRL, calculateDiff.
  destruct (Row.bs row), (currentBM st) eqn:Ebm, (currentHOC st) eqn:Ehoc;
    simpl in *; try discriminate; try rewrite Hh; try rewrite Hr;
    try rewrite Hd; simpl;
    injection Hhoc as ->; rewrite Ht; simpl;
    destruct (Row.is_ row), (Row.fs row); simpl; rewrite ?Hr; simpl;
    destruct (Row.d row); simpl;
    rewrite ?Hr, ?Hd, ?Ebm, ?Ehoc; auto.
Qed.

End ReductionFacts.

(** ** Lists and strings of the change-point editor *)

Section EditorFacts.

Local Open Scope nat_scope.

Lemma startsWith_app p s : Str.startsWith p (p ++ s)%string = true.
Proof.
  induction p as [|a p IH]; simpl; [reflexivity|].
  now rewrite Ascii.eqb_refl, IH.
Qed.

Lemma includes_app p a b : Str.includes p (a ++ p ++ b)%string = true.
Proof.
  induction a as [|c a IH]; simpl.
  - pose proof (startsWith_app p b) as H.
    destruct (p ++ b)%string; simpl; now rewrite H.
  - rewrite IH. apply orb_true_r.
Qed.

Lemma pointRow_pushed now newBS originalRow :
  Str.includes "-pushed" (Row.id (pointRow now newBS originalRow)) = true.
Proof.
  simpl. apply (includes_app "-pushed" ("row-" ++ Str.ofZ now) "").
Qed.

Lemma or_else_empty s : Str.or_else s "" = s.
Proof. now destruct s. Qed.

Lemma splice_in_length {A} i (x : A) l :
  length (splice_in i x l) = S (length l).
Proof.
  unfold splice_in. rewrite length_app. simpl.
  rewrite length_take, length_drop. lia.
Qed.

Lemma splice_in_lookup_lt {A} i j (x : A) l :
  j < i -> i <= length l -> splice_in i x l !! j = l !! j.
Proof.
  intros Hj Hi. unfold splice_in.
  rewrite lookup_app_l by (rewrite length_take; lia).
  apply lookup_take_lt. exact Hj.
Qed.

Lemma splice_in_lookup_eq {A} i (x : A) l :
  i <= length l -> splice_in i x l !! i = Some x.
Proof.
  intros Hi. unfold splice_in.
  rewrite lookup_app_r by (rewrite length_take; lia).
  rewrite length_take, Nat.min_l, Nat.sub_diag by lia. reflexivity.
Qed.

Lemma splice_out_in {A} i (x : A) l :
  i <= length l -> splice_out i (splice_in i x l) = l.
Proof.
  intros Hi. unfold splice_out, splice_in.
  rewrite take_app_le by (rewrite length_take; lia).
  rewrite take_take, Nat.min_id.
  rewrite drop_app_ge by (rewrite length_take; lia).
  rewrite length_take, Nat.min_l by lia.
  replace (S i - i) with 1 by lia. simpl. rewrite drop_0.
  apply take_drop.
Qed.

Lemma insert_splice_in {A} i j (x y : A) l :
  j < i -> i <= length l ->
  <[j := y]> (splice_in i x l) = splice_in i x (<[j := y]> l).
Proof.
  intros Hj Hi. unfold splice_in.
  rewrite insert_app_l by (rewrite length_take; lia).
  rewrite take_insert_lt by exact Hj.
  rewrite drop_insert_lt by lia. reflexivity.
Qed.

(** The successful path of [addChangePoint], spelled out. *)
Lemma addChangePoint_success now rows i newBS label benchmark fsRow f h orig :
  processRows rows benchmark !! i = Some fsRow ->
  Row.fs fsRow = Some f ->
  Row.hoc fsRow = Some h ->
  Js.truthy h = true ->
  rows !! i = Some orig ->
  addChangePoint now rows i newBS label benchmark =
  splice_in (i + 1) (pointRow now newBS orig)
    (<[i := updatedFsRowWithCP (cpLabelFor label rows) (h - f)%float
              (h - f + newBS)%float newBS orig]> rows).
Proof.
  intros Hp Hf Hh Ht Ho. unfold addChangePoint.
  rewrite Hp, Hf, Hh, Ho. simpl. now rewrite Ht.
Qed.

(** The paths on which [addChangePoint] gives its input back: no row at the
    index, no foresight there, or a reduced [hoc] there that is unset, zero
    or [NaN]. *)
Lemma addChangePoint_unchanged now rows i newBS label benchmark :
  match processRows rows benchmark !! i with
  | None => True
  | Some fsRow => Row.fs fsRow = None \/ Js.falsy_opt (Row.hoc fsRow) = true
  end ->
  addChangePoint now rows i newBS label benchmark = rows.
Proof.
  unfold addChangePoint.
  destruct (processRows rows benchmark !! i) as [fsRow|]; [|reflexivity].
  intros [->| ->]; [reflexivity|]. now destruct (Row.fs fsRow).
Qed.

(** The three paths of [deleteChangePoint] on a change-point row: the
    companion row follows, another row follows, no row follows. *)
Lemma deleteChangePoint_pushed rows i cp p :
  rows !! i = Some cp -> Js.flag (Row.isCP cp) = true ->
  rows !! (i + 1) = Some p ->
  Str.includes "-pushed" (Row.id p) = true ->
  deleteChangePoint rows i =
  splice_out (i + 1)
    (<[i := restoredFsRow cp (Str.or_else (Row.chainage p) "")]> rows).
Proof.
  intros Hc Hcp Hp Hid. unfold deleteChangePoint.
  rewrite Hc, Hcp, Hp, Hid. simpl.
  apply lookup_lt_Some in Hp.
  destruct (Nat.leb_spec (length rows) (i + 1)); [lia|reflexivity].
Qed.

Lemma deleteChangePoint_not_pushed rows i cp p :
  rows !! i = Some cp -> Js.flag (Row.isCP cp) = true ->
  rows !! (i + 1) = Some p ->
  Str.includes "-pushed" (Row.id p) = false ->
  deleteChangePoint rows i = <[i := restoredFsRow cp ""]> rows.
Proof.
  intros Hc Hcp Hp Hid. unfold deleteChangePoint.
  rewrite Hc, Hcp, Hp, Hid. simpl.
  apply lookup_lt_Some in Hp.
  destruct (Nat.leb_spec (length rows) (i + 1)); [lia|reflexivity].
Qed.

Lemma deleteChangePoint_last rows i cp :
  rows !! i = Some cp -> length rows = i + 1 ->
  deleteChangePoint rows i = rows.
Proof.
  intros Hc Hl. unfold deleteChangePoint. rewrite Hc.
  destruct (Js.flag (Row.isCP cp)); simpl; [|reflexivity].
  destruct (Nat.leb_spec (length rows) (i + 1)); [reflexivity|lia].
Qed.

(** Removing the change point planted by the successful path gives back the
    rows, the target row restored. *)
Lemma delete_after_add now (rows : list Row.t) i newBS cp orig :
  rows !! i = Some orig ->
  Js.flag (Row.isCP cp) = true ->
  deleteChangePoint
    (splice_in (i + 1) (pointRow now newBS orig) (<[i := cp]> rows)) i =
  <[i := restoredFsRow cp (Row.chainage orig)]> rows.
Proof.
  intros Ho Hcp.
  assert (Hi : i < length rows) by (eapply lookup_lt_Some; eauto).
  rewrite (deleteChangePoint_pushed _ i cp (pointRow now newBS orig)).
  - rewrite insert_splice_in by (rewrite ?length_insert; lia).
    rewrite splice_out_in by (rewrite !length_insert; lia).
    rewrite list_insert_insert_eq.
    change (Row.chainage (pointRow now newBS orig)) with (Row.chainage orig).
    now rewrite or_else_empty.
  - rewrite splice_in_lookup_lt by (rewrite ?length_insert; lia).
    now apply list_lookup_insert_eq.
  - exact Hcp.
  - apply splice_in_lookup_eq. rewrite length_insert. lia.
  - apply pointRow_pushed.
Qed.

End EditorFacts.

(** ** The station loop *)

Section GeneratorFacts.

Variable numberToString : float -> string.

Lemma stationDistances_cons fromM toM interval :
  0 < interval -> fromM <= toM ->
  stationDistances fromM toM interval =
  fromM :: stationDistances (fromM + interval) toM interval.
Proof.
  intros Hi Hle. unfold stationDistances.
  destruct (Z.leb_spec fromM toM) as [_|]; [|lia].
  assert (Hq : 0 <= (toM - fromM) / interval) by (apply Z.div_pos; lia).
  destruct (Z.leb_spec (fromM + interval) toM) as [Hle'|Hgt].
  - replace ((toM - fromM) / interval + 1)
      with (Z.succ ((toM - (fromM + interval)) / interval + 1)).
    2:{ replace (toM - fromM) with ((toM - (fromM + interval)) + 1 * interval)
          by lia.
        rewrite Z.div_add by lia. lia. }
    rewrite Z2Nat.inj_succ
      by (assert (0 <= (toM - (fromM + interval)) / interval)
            by (apply Z.div_pos; lia); lia).
    rewrite <- cons_seq. cbn [map]. f_equal; [lia|].
    rewrite <- seq_shift, map_map. apply map_ext. intros k. lia.
  - replace ((toM - fromM) / interval) with 0
      by (symmetry; apply Z.div_small; lia).
    change (Z.to_nat (0 + 1)) with 1%nat. cbn [seq map]. f_equal. lia.
Qed.

Lemma stationDistances_nil fromM toM interval :
  toM < fromM -> stationDistances fromM toM interval = [].
Proof.
  intros H. unfold stationDistances.
  destruct (Z.leb_spec fromM toM); [lia|reflexivity].
Qed.

Lemma stationDistances_length_step fromM toM interval :
  0 < interval -> fromM <= toM ->
  length (stationDistances fromM toM interval) =
  S (length (stationDistances (fromM + interval) toM interval)).
Proof. intros. now rewrite stationDistances_cons. Qed.

(** With a positive step the loop ends, after one turn per distance. *)
Lemma stationLoop_returns body interval toM :
  0 < interval ->
  forall n fromM fuel,
    length (stationDistances fromM toM interval) = n ->
    (n <= fuel)%nat ->
    stationLoop fuel body fromM toM interval =
    Some (concat (map body (stationDistances fromM toM interval))).
Proof.
  intros Hi. induction n as [|n IH]; intros fromM fuel Hn Hfuel.
  - destruct (Z.leb_spec fromM toM) as [Hle|Hgt].
    + rewrite stationDistances_cons in Hn by assumption. discriminate.
    + rewrite stationDistances_nil by assumption.
      destruct fuel; simpl; destruct (Z.leb_spec fromM toM); try lia;
        reflexivity.
  - destruct (Z.leb_spec fromM toM) as [Hle|Hgt].
    + rewrite stationDistances_cons in * by assumption.
      destruct fuel as [|fuel]; [lia|]. simpl.
      destruct (Z.leb_spec fromM toM); [|lia].
      rewrite (IH (fromM + interval) fuel) by (simpl in Hn; lia).
      reflexivity.
    + rewrite stationDistances_nil in Hn by assumption. discriminate.
Qed.

(** With a step that is not positive the loop never ends once entered. *)
Lemma stationLoop_diverges body interval toM :
  interval <= 0 ->
  forall fuel fromM, fromM <= toM ->
    stationLoop fuel body fromM toM interval = None.
Proof.
  intros Hi. induction fuel as [|fuel IH]; intros fromM Hle; simpl;
    destruct (Z.leb_spec fromM toM); try lia; [reflexivity|].
  rewrite IH by lia. reflexivity.
Qed.

Lemma stationDistances_spec fromM toM interval m :
  0 < interval ->
  In m (stationDistances fromM toM interval) <->
  exists k, 0 <= k /\ m = fromM + k * interval /\ m <= toM.
Proof.
  intros Hi. unfold stationDistances.
  destruct (Z.leb_spec fromM toM) as [Hle|Hgt].
  - assert (Hq : 0 <= (toM - fromM) / interval) by (apply Z.div_pos; lia).
    rewrite in_map_iff. split.
    + intros (k & <- & Hk). apply in_seq in Hk. exists (Z.of_nat k).
      split; [lia|]. split; [reflexivity|].
      assert (Z.of_nat k <= (toM - fromM) / interval) by lia.
      pose proof (Z.mul_div_le (toM - fromM) interval Hi). nia.
    + intros (k & Hk & -> & Hm). exists (Z.to_nat k).
      split; [lia|]. apply in_seq. split; [lia|]. simpl.
      assert (k <= (toM - fromM) / interval)
        by (apply Z.div_le_lower_bound; lia).
      lia.
  - split; [intros []|]. intros (k & Hk & -> & Hm). nia.
Qed.

Lemma stationPoints_chainage pointsPerChainage pointPattern m p :
  In p (stationPoints numberToString pointsPerChainage pointPattern m) ->
  ChainagePoint.chainage p = formatChainage m.
Proof.
  unfold stationPoints.
  destruct pointPattern as [[|label labels]|].
  2:{ rewrite in_map_iff. intros (l & <- & _). reflexivity. }
  all: destruct (pointsPerChainage =? 1);
    [intros [<-|[]]; reflexivity|];
    destruct (pointsPerChainage =? 3);
    [intros [<-|[<-|[<-|[]]]]; reflexivity|];
    rewrite in_map_iff; intros (i & <- & _); reflexivity.
Qed.

Lemma length_stationPoints pointsPerChainage pointPattern m :
  length (stationPoints numberToString pointsPerChainage pointPattern m) =
  pointsOfStation pointsPerChainage pointPattern.
Proof.
  unfold stationPoints, pointsOfStation.
  destruct pointPattern as [[|label labels]|].
  2:{ now rewrite length_map. }
  all: destruct (Z.eqb_spec pointsPerChainage 1) as [->|_]; [reflexivity|];
    destruct (Z.eqb_spec pointsPerChainage 3) as [->|_]; [reflexivity|];
    now rewrite length_map, length_seq.
Qed.

Lemma map_constant {A B} (g : A -> B) v l :
  (forall x, In x l -> g x = v) -> map g l = List.repeat v (length l).
Proof.
  induction l as [|x l IH]; intros H; simpl; [reflexivity|].
  rewrite (H x (or_introl eq_refl)), IH; [reflexivity|].
  intros y Hy. apply H. now right.
Qed.

(** The column of chainages of the points of a list of stations. *)
Lemma chainages_of_stations pointsPerChainage pointPattern distances :
  map ChainagePoint.chainage
    (concat (map (stationPoints numberToString pointsPerChainage pointPattern)
               distances)) =
  concat (map (fun m => List.repeat (formatChainage m)
                          (pointsOfStation pointsPerChainage pointPattern))
            distances).
Proof.
  induction distances as [|m l IH]; simpl; [reflexivity|].
  rewrite map_app, IH. f_equal.
  rewrite <- (length_stationPoints pointsPerChainage pointPattern m).
  apply map_constant. intros p. apply stationPoints_chainage.
Qed.

Lemma pointsOfStation_none pointsPerChainage pointPattern :
  pointsOfStation pointsPerChainage pointPattern = 0%nat <->
  (pointPattern = None \/ pointPattern = Some []) /\ pointsPerChainage <= 0.
Proof.
  unfold pointsOfStation.
  destruct pointPattern as [[|label labels]|]; simpl.
  - split; [intros H; split; [now right|lia]|intros [_ H]; lia].
  - split; [discriminate|]. intros [[H|H] _]; discriminate.
  - split; [intros H; split; [now left|lia]|intros [_ H]; lia].
Qed.

End GeneratorFacts.

(** ** Chainage strings *)

Section ChainageStrings.

Local Open Scope string_scope.

Lemma isDigit_cases c :
  isDigit c = true ->
  (c = "0" \/ c = "1" \/ c = "2" \/ c = "3" \/ c = "4" \/
   c = "5" \/ c = "6" \/ c = "7" \/ c = "8" \/ c = "9")%char.
Proof.
  unfold isDigit. intros H.
  destruct (DecimalString.uint_of_char c (Some Decimal.Nil)) as [d|] eqn:E;
    [|discriminate].
  apply DecimalString.uint_of_char_spec in E. tauto.
Qed.

Ltac digit_cases H :=
  apply isDigit_cases in H;
  destruct H as [->|[->|[->|[->|[->|[->|[->|[->|[->| ->]]]]]]]]].

Lemma split_digits s : allDigits s = true -> Str.split "+" s = [s].
Proof.
  induction s as [|c s IH]; simpl; [reflexivity|].
  intros [Hc Hs]%andb_prop. rewrite (IH Hs).
  digit_cases Hc; reflexivity.
Qed.

Lemma split_chainage km m :
  allDigits km = true -> allDigits m = true ->
  Str.split "+" (km ++ "+" ++ m) = [km; m].
Proof.
  intros Hk Hm. induction km as [|c km IH]; simpl.
  - now rewrite split_digits.
  - simpl in Hk. apply andb_prop in Hk as [Hc Hk].
    specialize (IH Hk). simpl in IH. rewrite IH.
    digit_cases Hc; reflexivity.
Qed.

(** On a string of digits the prefix is the whole string. *)
Lemma decPrefix_digits s :
  allDigits s = true ->
  DecimalString.NilEmpty.string_of_uint (Str.decPrefix s) = s.
Proof.
  induction s as [|c s IH]; simpl; [reflexivity|].
  intros [Hc Hs]%andb_prop. specialize (IH Hs).
  digit_cases Hc; simpl; now rewrite IH.
Qed.

Lemma parseInt_digits c s :
  allDigits (String c s) = true ->
  Str.parseInt (String c s) = Some (Z.of_uint (Str.decPrefix (String c s))).
Proof.
  simpl. intros [Hc Hs]%andb_prop.
  destruct s as [|x s].
  - digit_cases Hc; reflexivity.
  - simpl in Hs. apply andb_prop in Hs as [Hx Hs].
    digit_cases Hc; try reflexivity; digit_cases Hx; reflexivity.
Qed.

Lemma ofZ_of_uint d :
  Str.ofZ (Z.of_uint d) =
  DecimalString.NilZero.string_of_uint (Decimal.unorm d).
Proof.
  unfold Str.ofZ. change (Z.of_uint d) with (Z.of_int (Decimal.Pos d)).
  rewrite DecimalZ.to_of. reflexivity.
Qed.

Lemma string_of_unorm d :
  d <> Decimal.Nil ->
  DecimalString.NilZero.string_of_uint (Decimal.unorm d) =
  stripZeros (DecimalString.NilEmpty.string_of_uint d).
Proof.
  induction d as [|d IH|d _|d _|d _|d _|d _|d _|d _|d _|d _];
    intros Hd; try reflexivity; [congruence|].
  destruct d; try reflexivity; apply IH; discriminate.
Qed.

Lemma of_uint_nonneg d : 0 <= Z.of_uint d.
Proof. unfold Z.of_uint. apply N2Z.is_nonneg. Qed.

(** Three digits read as a number below 1000 and print back, padded. *)
Lemma meters_roundtrip m :
  String.length m = 3%nat -> allDigits m = true ->
  Str.parseInt m = Some (Z.of_uint (Str.decPrefix m)) /\
  0 <= Z.of_uint (Str.decPrefix m) < 1000 /\
  Str.padStart 3 "0" (Str.ofZ (Z.of_uint (Str.decPrefix m))) = m.
Proof.
  intros Hl Hd.
  destruct m as [|c1 [|c2 [|c3 [|]]]]; try discriminate Hl.
  split; [now apply parseInt_digits|].
  simpl in Hd.
  apply andb_prop in Hd as [H1 Hd]. apply andb_prop in Hd as [H2 Hd].
  apply andb_prop in Hd as [H3 _].
  digit_cases H1; digit_cases H2; digit_cases H3;
    (split; [split; [discriminate|reflexivity]|reflexivity]).
Qed.

Lemma formatChainage_parts k m :
  0 <= k -> 0 <= m < 1000 ->
  formatChainage (k * 1000 + m) =
  Str.ofZ k ++ "+" ++ Str.padStart 3 "0" (Str.ofZ m).
Proof.
  intros Hk Hm. unfold formatChainage.
  rewrite Z.rem_mod_nonneg by lia.
  rewrite (Z.add_comm (k * 1000)), Z.div_add, Z.mod_add by lia.
  rewrite Z.div_small, Z.mod_small by lia. reflexivity.
Qed.

(** Splitting at a character gives one part more than the string holds
    of it. *)
Lemma length_split c s : length (Str.split c s) = S (countChar c s).
Proof.
  induction s as [|x s IH]; simpl; [reflexivity|].
  destruct (Ascii.eqb x c); simpl; [now rewrite IH|].
  destruct (Str.split c s) as [|part parts]; simpl in *; congruence.
Qed.

Lemma split_whole c s : countChar c s = 0%nat -> Str.split c s = [s].
Proof.
  induction s as [|x s IH]; simpl; [reflexivity|].
  destruct (Ascii.eqb x c); [discriminate|]. simpl.
  intros H. now rewrite (IH H).
Qed.

Lemma split_at c a b :
  countChar c a = 0%nat ->
  Str.split c (a ++ String c b) = a :: Str.split c b.
Proof.
  induction a as [|x a IH]; simpl.
  - intros _. now rewrite Ascii.eqb_refl.
  - destruct (Ascii.eqb x c); [discriminate|]. simpl.
    intros H. now rewrite (IH H).
Qed.

End ChainageStrings.

(** ** Pattern re-application *)

Section PatternFacts.

Local Open Scope nat_scope.

Lemma sameButLabel_refl r : sameButLabel r r.
Proof. unfold sameButLabel. tauto. Qed.

Lemma sameButLabel_relabelRow p r : sameButLabel (relabelRow p r) r.
Proof. unfold sameButLabel. simpl. tauto. Qed.

Lemma filter_id {A} (f : A -> bool) l :
  Forall (fun x => f x = true) l -> List.filter f l = l.
Proof.
  induction 1 as [|x l Hx _ IH]; simpl; [reflexivity|].
  now rewrite Hx, IH.
Qed.

Lemma ordinaryBefore_0 middle : ordinaryBefore 0 middle = 0.
Proof. reflexivity. Qed.

Lemma ordinaryBefore_S j r middle :
  ordinaryBefore (S j) (r :: middle) =
  (if notCP r then 1 else 0) + ordinaryBefore j middle.
Proof. unfold ordinaryBefore. simpl. now destruct (notCP r). Qed.

Lemma length_relabel pts middle : forall k,
  length (fst (relabel pts k middle)) = length middle.
Proof.
  induction middle as [|r rest IH]; intros k; simpl; [reflexivity|].
  destruct (Js.flag (Row.isCP r)).
  - specialize (IH k). destruct (relabel pts k rest). simpl in *. lia.
  - destruct (pts !! k).
    + specialize (IH (k + 1)). destruct (relabel pts (k + 1) rest).
      simpl in *. lia.
    + specialize (IH k). destruct (relabel pts k rest). simpl in *. lia.
Qed.

(** What [relabel] leaves at each position. *)
Lemma relabel_lookup pts middle : forall k j r,
  middle !! j = Some r ->
  fst (relabel pts k middle) !! j =
  Some (if Js.flag (Row.isCP r) then r
        else match pts !! (k + ordinaryBefore j middle) with
             | Some p => relabelRow p r
             | None => r
             end).
Proof.
  induction middle as [|r0 rest IH]; intros k j r Hj; [discriminate|].
  simpl. destruct j as [|j]; simpl in Hj.
  - injection Hj as ->. rewrite ordinaryBefore_0, Nat.add_0_r.
    destruct (Js.flag (Row.isCP r)) eqn:Hcp.
    + now destruct (relabel pts k rest).
    + destruct (pts !! k).
      * now destruct (relabel pts (k + 1) rest).
      * now destruct (relabel pts k rest).
  - rewrite ordinaryBefore_S. unfold notCP at 1.
    destruct (Js.flag (Row.isCP r0)) eqn:Hcp0; simpl negb; cbv iota.
    + specialize (IH k j r Hj). destruct (relabel pts k rest). exact IH.
    + destruct (pts !! k) eqn:Hk.
      * specialize (IH (k + 1) j r Hj).
        destruct (relabel pts (k + 1) rest). simpl in IH |- *.
        rewrite IH. now rewrite <- Nat.add_assoc.
      * specialize (IH k j r Hj). destruct (relabel pts k rest).
        simpl in IH |- *.
        rewrite IH. apply lookup_ge_None in Hk.
        repeat match goal with
        | |- context [pts !! ?i] =>
            rewrite (proj2 (lookup_ge_None pts i)) by lia
        end.
        reflexivity.
Qed.

(** The stations [relabel] has not used up. *)
Lemma relabel_rest pts middle : forall k,
  k <= length pts ->
  drop (snd (relabel pts k middle)) pts =
  drop (k + length (List.filter notCP middle)) pts.
Proof.
  induction middle as [|r rest IH]; intros k Hk; simpl.
  - now rewrite Nat.add_0_r.
  - unfold notCP at 1. destruct (Js.flag (Row.isCP r)); simpl.
    + specialize (IH k Hk). now destruct (relabel pts k rest).
    + destruct (pts !! k) eqn:E.
      * apply lookup_lt_Some in E.
        specialize (IH (k + 1) ltac:(lia)).
        destruct (relabel pts (k + 1) rest). simpl in *.
        rewrite IH. f_equal. lia.
      * apply lookup_ge_None in E.
        specialize (IH k Hk). destruct (relabel pts k rest). simpl in *.
        rewrite IH. rewrite !drop_ge by lia. reflexivity.
Qed.

Lemma relabel_notClosing pts middle : forall k,
  Forall (fun r => notClosing r = true) middle ->
  Forall (fun r => notClosing r = true) (fst (relabel pts k middle)).
Proof.
  induction middle as [|r rest IH]; intros k H; simpl; [constructor|].
  inversion_clear H as [|? ? Hr Hrest].
  destruct (Js.flag (Row.isCP r)).
  - specialize (IH k Hrest). destruct (relabel pts k rest).
    constructor; assumption.
  - destruct (pts !! k).
    + specialize (IH (k + 1) Hrest). destruct (relabel pts (k + 1) rest).
      constructor; assumption.
    + specialize (IH k Hrest). destruct (relabel pts k rest).
      constructor; assumption.
Qed.

Lemma applyPatternRows_shape bm rest regenerated :
  notClosing bm = true ->
  let stations := drop 1 regenerated in
  let middle := List.filter notClosing rest in
  applyPatternRows (bm :: rest) regenerated =
  bm :: fst (relabel stations 0 middle)
     ++ map appendedRow (drop (length (List.filter notCP middle)) stations)
     ++ option_list (List.find isClosing rest).
Proof.
  intros Hbm stations middle. unfold applyPatternRows.
  change (drop 1 (bm :: rest)) with rest.
  change ((bm :: rest) !! 0) with (Some bm).
  fold stations. fold middle.
  pose proof (relabel_rest stations middle 0 (Nat.le_0_l _)) as Hrest.
  pose proof (relabel_notClosing stations middle 0) as Hnc.
  destruct (relabel stations 0 middle) as [nextMiddle k]. simpl in Hrest, Hnc.
  rewrite Hrest. simpl List.find.
  assert (Hb : isClosing bm = false)
    by (unfold notClosing in Hbm; now destruct (isClosing bm)).
  rewrite Hb. simpl option_list. simpl fst.
  destruct (List.find isClosing rest) as [c|]; simpl option_list.
  - rewrite filter_id.
    + simpl. now rewrite <- !app_assoc.
    + constructor; [exact Hbm|]. apply Forall_app. split.
      * apply Hnc. apply Forall_forall. intros r Hr.
        apply list_elem_of_In, filter_In in Hr. tauto.
      * apply Forall_forall. intros r Hr.
        apply list_elem_of_In, in_map_iff in Hr as (p & <- & _). reflexivity.
  - now rewrite app_nil_r.
Qed.

End PatternFacts.

(** ** The claims about the reduction engine and the change-point editor *)

Section EngineClaims.

Local Open Scope nat_scope.

(** C1 (the code diverges).  An ordinary row whose height of collimation is
    defined and equal to 0 gets no reduced level: benchmark RL -1.5 and
    backsight 1.5 give hoc = 0, the next row carries it and holds is = 1.0,
    and its rl stays unset where the claim gives 0 - 1.0. *)
Theorem C1_zero_hoc_leaves_rl_unset :
  exists r,
    processRows [Example.bmRow 1.5; Example.isRow 1.0] (Example.bench (-1.5))
      !! 1 = Some r /\
    Row.hoc r = Some 0%float /\ Row.is_ r = Some 1%float /\
    Row.rl r = None.
Proof. eexists. vm_compute. repeat split; reflexivity. Qed.

(** C2 (the code diverges).  A backsight of 0 against a benchmark RL of 10
    does give hoc = 10, but a height of collimation of exactly 0 is taken
    for a missing one: the row that carries it gets no rl, and
    [addChangePoint] returns its input. *)
Theorem C2_zero_is_taken_for_missing :
  (Row.hoc <$> processRows [Example.bmRow 0] (Example.bench 10) !! 0
     = Some (Some 10%float)) /\
  (exists r,
     processRows [Example.bmRow 0; Example.isRow 1.2] (Example.bench 0) !! 1
       = Some r /\
     Row.hoc r = Some 0%float /\ Row.is_ r = Some 1.2%float /\
     Row.rl r = None) /\
  (exists r,
     processRows [Example.bmRow 0; Example.fsRow 1.0] (Example.bench 0) !! 1
       = Some r /\
     Row.hoc r = Some 0%float /\ Row.fs r = Some 1%float /\
     addChangePoint 1700 [Example.bmRow 0; Example.fsRow 1.0] 1 1.2 None
       (Example.bench 0) = [Example.bmRow 0; Example.fsRow 1.0]).
Proof.
  split; [vm_compute; reflexivity|].
  split; eexists; vm_compute; repeat split; reflexivity.
Qed.

(** C3 (the code diverges).  With benchmark RL -1.5 and backsight 1.5 the
    row at index 1 holds fs = 2.0 and reduces to hoc = 0: both preconditions
    of the claim hold, and [addChangePoint] still returns the rows
    unchanged. *)
Theorem C3_zero_hoc_blocks_insertion :
  let rows := [Example.bmRow 1.5; Example.fsRow 2.0] in
  exists r,
    processRows rows (Example.bench (-1.5)) !! 1 = Some r /\
    Row.fs r = Some 2%float /\ Row.hoc r = Some 0%float /\
    addChangePoint 1700 rows 1 1.2 None (Example.bench (-1.5)) = rows.
Proof. eexists. vm_compute. repeat split; reflexivity. Qed.

(** C4, as the code has it.  When the insertion goes through (a foresight on
    the row and a reduced hoc there that is a non-zero number), the result
    is one row longer, the target row is the change point, and the row
    inserted right after it carries the original chainage label and station
    type, the new backsight as its bs, and no is, fs, hoc, rl or diff. *)
Theorem C4_pushed_row now rows i newBS label benchmark fsRow f h orig :
  processRows rows benchmark !! i = Some fsRow ->
  Row.fs fsRow = Some f ->
  Row.hoc fsRow = Some h ->
  Js.truthy h = true ->
  rows !! i = Some orig ->
  let out := addChangePoint now rows i newBS label benchmark in
  length out = S (length rows) /\
  (exists cp, out !! i = Some cp /\ Row.isCP cp = Some true) /\
  exists p,
    out !! (i + 1) = Some p /\
    Row.chainage p = Row.chainage orig /\
    Row.chainageType p = Row.chainageType orig /\
    Row.bs p = Some newBS /\
    Row.is_ p = None /\ Row.fs p = None /\
    Row.hoc p = None /\ Row.rl p = None /\ Row.diff p = None.
Proof.
  intros Hp Hf Hh Ht Ho out. subst out.
  rewrite (addChangePoint_success _ _ _ _ _ _ _ _ _ _ Hp Hf Hh Ht Ho).
  assert (Hi : i < length rows) by (eapply lookup_lt_Some; eauto).
  split; [now rewrite splice_in_length, length_insert|].
  split.
  - eexists. rewrite splice_in_lookup_lt by (rewrite ?length_insert; lia).
    rewrite list_lookup_insert_eq by exact Hi. split; reflexivity.
  - eexists. rewrite splice_in_lookup_eq by (rewrite length_insert; lia).
    repeat split; reflexivity.
Qed.

(** The end-to-end scenario is such an insertion: the row at index 2 reduces
    to hoc = 101.5 and holds fs = 2.0. *)
Lemma C4_pushed_row_witness :
  let out := addChangePoint 1700 Example.survey 2 1.2 None (Example.bench 100) in
  length out = 4 /\
  (exists cp, out !! 2 = Some cp /\ Row.isCP cp = Some true) /\
  exists p,
    out !! 3 = Some p /\
    Row.chainage p = "3.5 RHS"%string /\
    Row.chainageType p = Some RHS /\
    Row.bs p = Some 1.2%float /\
    Row.is_ p = None /\ Row.fs p = None /\
    Row.hoc p = None /\ Row.rl p = None /\ Row.diff p = None.
Proof.
  exact (C4_pushed_row 1700 Example.survey 2 1.2 None (Example.bench 100)
           (Row.with_rl (Some 99.5%float)
              (Row.with_hoc (Some 101.5%float) (Example.fsRow 2)))
           2 101.5 (Example.fsRow 2)
           eq_refl eq_refl eq_refl eq_refl eq_refl).
Defined.

(** C4 as stated fails: in the end-to-end scenario the inserted row has the
    new backsight 1.2 as its bs, so its readings are not all cleared. *)
Lemma C4_pushed_row_keeps_backsight :
  exists p,
    addChangePoint 1700 Example.survey 2 1.2 None (Example.bench 100) !! 3
      = Some p /\
    Row.bs p = Some 1.2%float /\ Row.bs p <> None.
Proof.
  eexists. split; [vm_compute; reflexivity|].
  split; [reflexivity|discriminate].
Qed.

(** C5.  A closing benchmark row leaves the two variables of the fold as
    they were.  Reached with a height of collimation [h] and holding a
    foresight [f], it gets rl = h - f; if it also holds a closing value [v]
    it gets d = v and diff = v - (h - f).  The code subtracts [rl || 0], so
    the difference is stated for an rl that is a number other than NaN and
    -0. *)
Theorem C5_closing_row pre row post benchmark :
  Js.flag (Row.isClosingBM row) = true ->
  stateAfter 0 (initialState benchmark) (pre ++ [row]) =
  stateAfter 0 (initialState benchmark) pre /\
  forall h f,
    currentHOC (stateAfter 0 (initialState benchmark) pre) = Some h ->
    Row.fs row = Some f ->
    exists r,
      processRows (pre ++ row :: post) benchmark !! length pre = Some r /\
      Row.rl r = Some (h - f)%float /\
      forall v, Row.closingBMValue row = Some v ->
        Row.d r = Some v /\
        (keptByOrZero (h - f)%float ->
         Row.diff r = Some (v - (h - f))%float).
Proof.
  intros Hc. split.
  - rewrite stateAfter_app. simpl. unfold processRow. now rewrite Hc.
  - intros h f Hh Hf.
    eexists. split; [apply processFrom_lookup|].
    unfold processRow. rewrite Hc. simpl. unfold processClosing.
    rewrite Hh, Hf.
    destruct pre as [|p pre]; [discriminate Hh|]. simpl.
    destruct (Row.closingBMValue row) as [v|]; simpl.
    + split; [reflexivity|]. intros v' [= <-].
      split; [reflexivity|]. intros Hk.
      unfold keptByOrZero in Hk. simpl in Hk. now rewrite Hk.
    + split; [reflexivity|]. discriminate.
Qed.

(** The closed traverse of the specification: after the change point of the
    end-to-end scenario the height of collimation is 100.7, and the closing
    row with fs = 0.8 and closing value 99.9 reduces to rl = 99.9, d = 99.9
    and diff = 0. *)
Lemma C5_closing_row_witness :
  let pre :=
    addChangePoint 1700 Example.survey 2 1.2 None (Example.bench 100) in
  currentHOC (stateAfter 0 (initialState (Example.bench 100)) pre)
    = Some 100.7%float /\
  exists r,
    processRows (pre ++ [Example.closingRow]) (Example.bench 100) !! 4
      = Some r /\
    Row.rl r = Some 99.9%float /\
    Row.d r = Some 99.9%float /\
    Row.diff r = Some 0%float.
Proof.
  split; [reflexivity|].
  destruct (proj2 (C5_closing_row
                     (addChangePoint 1700 Example.survey 2 1.2 None
                        (Example.bench 100))
                     Example.closingRow [] (Example.bench 100) eq_refl)
              100.7%float 0.8%float eq_refl eq_refl)
    as (r & Hr & Hrl & Hv).
  exists r. split; [exact Hr|]. split; [exact Hrl|].
  destruct (Hv 99.9%float eq_refl) as [Hd Hdiff].
  split; [exact Hd|]. exact (Hdiff eq_refl).
Defined.

(** C6.  On a row that holds a foresight, reduces to a defined hoc and is
    not already a change point, inserting a change point and removing it at
    once gives back as many rows as before, every other row as it was, and
    the row itself with its original chainage and no change-point data. *)
Theorem C6_insert_then_remove now rows i newBS label benchmark fsRow f h orig :
  rows !! i = Some orig ->
  Row.fs orig = Some f ->
  processRows rows benchmark !! i = Some fsRow ->
  Row.hoc fsRow = Some h ->
  noChangePoint orig ->
  let out :=
    deleteChangePoint (addChangePoint now rows i newBS label benchmark) i in
  length out = length rows /\
  (forall j, j <> i -> out !! j = rows !! j) /\
  exists r,
    out !! i = Some r /\
    Row.chainage r = Row.chainage orig /\
    noChangePoint r.
Proof.
  intros Ho Hf Hp Hh Hn out.
  assert (Hi : i < length rows) by (eapply lookup_lt_Some; eauto).
  assert (Hfs : Row.fs fsRow = Some f).
  { rewrite (processRows_lookup _ _ _ _ Ho) in Hp. injection Hp as <-.
    destruct (processRow_sameEntries i
                (stateAfter 0 (initialState benchmark) (take i rows)) orig)
      as (_ & _ & _ & _ & _ & -> & _).
    exact Hf. }
  destruct (Js.truthy h) eqn:Ht.
  - assert (Hout : out =
      <[i := restoredFsRow
               (updatedFsRowWithCP (cpLabelFor label rows) (h - f)%float
                  (h - f + newBS)%float newBS orig)
               (Row.chainage orig)]> rows).
    { subst out.
      rewrite (addChangePoint_success _ _ _ _ _ _ _ _ _ _ Hp Hfs Hh Ht Ho).
      now apply delete_after_add. }
    rewrite Hout. split; [apply length_insert|].
    split; [intros j Hj; now apply list_lookup_insert_ne|].
    eexists. split; [now apply list_lookup_insert_eq|].
    repeat split; reflexivity.
  - assert (Hout : out = rows).
    { subst out. rewrite addChangePoint_unchanged.
      - unfold deleteChangePoint. rewrite Ho.
        destruct Hn as [-> _]. reflexivity.
      - rewrite Hp, Hh. simpl. rewrite Ht. now right. }
    rewrite Hout. split; [reflexivity|]. split; [reflexivity|].
    exists orig. auto.
Qed.

(** The end-to-end scenario, a change point inserted at row 2 and removed
    again. *)
Lemma C6_insert_then_remove_witness :
  let out :=
    deleteChangePoint
      (addChangePoint 1700 Example.survey 2 1.2 None (Example.bench 100)) 2 in
  length out = 3 /\
  (forall j, j <> 2 -> out !! j = Example.survey !! j) /\
  exists r,
    out !! 2 = Some r /\
    Row.chainage r = "3.5 RHS"%string /\
    noChangePoint r.
Proof.
  exact (C6_insert_then_remove 1700 Example.survey 2 1.2 None
           (Example.bench 100)
           (Row.with_rl (Some 99.5%float)
              (Row.with_hoc (Some 101.5%float) (Example.fsRow 2)))
           2 101.5 (Example.fsRow 2)
           eq_refl eq_refl eq_refl eq_refl
           (conj eq_refl (conj eq_refl (conj eq_refl eq_refl)))).
Defined.

(** C7 (the code diverges).  A change point that is the last row has no row
    after it; [deleteChangePoint] returns the rows as they are, so the row
    keeps its flag, its change-point label and its chainage, where the claim
    has them cleared and blanked. *)
Theorem C7_last_row_change_point_is_kept :
  let rows := [Example.bmRow 1.5; Example.isRow 1.0; Example.lastCP] in
  deleteChangePoint rows 2 = rows /\
  exists r,
    deleteChangePoint rows 2 !! 2 = Some r /\
    Row.isCP r = Some true /\ Row.cpLabel r = Some "CP01"%string /\
    Row.chainage r = "CP01"%string.
Proof.
  split; [reflexivity|]. eexists. repeat split; reflexivity.
Qed.

End EngineClaims.

(** ** The claims about pattern re-application and the chainage generator *)

Section GeneratorClaims.

Local Open Scope string_scope.

(** C8.  On a project whose first row is the benchmark row (not a closing
    row) and whose interval is positive, applying a pattern text with at
    least one label returns, and in the rows it stores: row 0 is the old
    row 0; the rows after it that are not the closing row keep their
    places and their number; a change-point row is unchanged; the [k]-th
    other row takes the label and station type of the [k]-th regenerated
    station and keeps every other field, or is unchanged when there is no
    such station; the stations left over follow as blank rows; and the
    closing row, if there is one, comes last. *)
Theorem C8_apply_pattern numberToString clock project patternText bm rest :
  Project.rows project = bm :: rest ->
  notClosing bm = true ->
  parsePattern patternText <> [] ->
  (0 < Project.chainageInterval project)%Z ->
  exists fuel regenerated project',
    generateTableRows numberToString fuel clock
      (Project.with_pointPattern (Some (parsePattern patternText)) project)
      = Some regenerated /\
    handleApplyPattern numberToString fuel clock project patternText
      = Some project' /\
    let stations := drop 1 regenerated in
    let middle := List.filter notClosing rest in
    exists nextMiddle,
      Project.rows project' =
        bm :: nextMiddle
           ++ map appendedRow
                (drop (length (List.filter notCP middle)) stations)
           ++ option_list (List.find isClosing rest) /\
      length nextMiddle = length middle /\
      (forall j r, middle !! j = Some r -> Js.flag (Row.isCP r) = true ->
         nextMiddle !! j = Some r) /\
      (forall j r, middle !! j = Some r -> Js.flag (Row.isCP r) = false ->
         exists r',
           nextMiddle !! j = Some r' /\ sameButLabel r' r /\
           match stations !! ordinaryBefore j middle with
           | Some p =>
               Row.chainage r' = Row.chainage p /\
               Row.chainageType r' = Row.chainageType p
           | None => r' = r
           end).
Proof.
  intros Hrows Hbm Hpat Hint.
  set (parsed := parsePattern patternText) in *.
  set (project2 := Project.with_pointPattern (Some parsed) project).
  set (distances :=
         stationDistances (parseChainage (Project.fromChainage project))
           (parseChainage (Project.toChainage project))
           (Project.chainageInterval project)).
  pose proof (stationLoop_returns
                (stationPoints numberToString
                   (Project.pointsPerChainage project) (Some parsed))
                _ (parseChainage (Project.toChainage project)) Hint
                (length distances)
                (parseChainage (Project.fromChainage project))
                (length distances) eq_refl (Nat.le_refl _)) as Hgen.
  assert (Hreg : exists regenerated,
            generateTableRows numberToString (length distances) clock project2
            = Some regenerated).
  { unfold generateTableRows, generateChainagePoints. simpl.
    rewrite Hgen. eauto. }
  destruct Hreg as [regenerated Hreg].
  exists (length distances), regenerated.
  eexists. split; [exact Hreg|]. split.
  - unfold handleApplyPattern. fold parsed. fold project2. rewrite Hreg.
    destruct parsed; [congruence|reflexivity].
  - intros stations middle. simpl Project.rows. rewrite Hrows.
    exists (fst (relabel stations 0 middle)).
    split; [now apply applyPatternRows_shape|].
    split; [apply length_relabel|]. split.
    + intros j r Hj Hcp. rewrite (relabel_lookup _ _ _ _ _ Hj).
      now rewrite Hcp.
    + intros j r Hj Hcp. rewrite (relabel_lookup _ _ _ _ _ Hj).
      rewrite Hcp. simpl. eexists. split; [reflexivity|].
      destruct (stations !! ordinaryBefore j middle).
      * split; [apply sameButLabel_relabelRow|]. split; reflexivity.
      * split; [apply sameButLabel_refl|reflexivity].
Qed.

(** On the example project the pattern "3.5 LHS, CL" gives four stations for
    three ordinary rows: the rows keep their readings under new labels, the
    change point stays, one blank row is added and the closing row is
    last. *)
Lemma C8_apply_pattern_witness :
  (exists fuel project',
     handleApplyPattern Example.noNumberToString fuel Example.clock
       Example.project "3.5 LHS, CL" = Some project' /\
     Project.rows project' !! 0%nat = Some (Example.bmRow 1.5)) /\
  option_map (fun p => map Row.chainage (Project.rows p))
    (handleApplyPattern Example.noNumberToString 2 Example.clock
       Example.project "3.5 LHS, CL")
  = Some [""; "3.5 LHS"; "CP01"; "0+000 CL"; "3.5 LHS"; "0+020 CL"; ""]%string.
Proof.
  split; [|reflexivity].
  destruct (C8_apply_pattern Example.noNumberToString Example.clock
              Example.project "3.5 LHS, CL" (Example.bmRow 1.5)
              (tail (Project.rows Example.project))
              eq_refl eq_refl ltac:(discriminate) eq_refl)
    as (fuel & regenerated & project' & _ & Happ & nextMiddle & Hrows & _).
  exists fuel, project'. split; [exact Happ|].
  rewrite Hrows. reflexivity.
Defined.

(** C9, as the code has it.  Take chainages and a positive interval (the
    default 20 included) for which every number stays a whole number that
    binary64 holds exactly: the parts and values of the two chainages, the
    interval, the step past the end, and the count of points.  Then the
    generator returns: some number of turns suffices, and with that many or
    more the result is the points of the stations at [fromM],
    [fromM + interval], [fromM + 2 * interval], ... in this order, the
    distances being exactly those of this form that do not pass [toM].
    Every station gives the same number of points, each carrying the
    formatted distance of the station: one point per label of the pattern
    and, without a pattern, as many as the count says; so a station gives
    no point exactly when there is no label and the count is not
    positive. *)
Theorem C9_stations_on_the_grid numberToString fromChainage toChainage
    pointsPerChainage interval pointPattern :
  0 < default 20 interval ->
  exactChainage fromChainage -> exactChainage toChainage ->
  default 20 interval <= maxExact ->
  parseChainage toChainage + default 20 interval <= maxExact ->
  Z.abs pointsPerChainage <= maxExact ->
  let fromM := parseChainage fromChainage in
  let toM := parseChainage toChainage in
  let distances := stationDistances fromM toM (default 20 interval) in
  let count := pointsOfStation pointsPerChainage pointPattern in
  (forall fuel, (length distances <= fuel)%nat ->
     exists points,
       generateChainagePoints numberToString fuel fromChainage toChainage
         pointsPerChainage interval pointPattern = Some points /\
       points =
         concat (map (stationPoints numberToString pointsPerChainage
                        pointPattern) distances) /\
       map ChainagePoint.chainage points =
         concat (map (fun m => List.repeat (formatChainage m) count)
                   distances)) /\
  (forall m, In m distances <->
     exists k, 0 <= k /\ m = fromM + k * default 20 interval /\ m <= toM) /\
  (forall m,
     length (stationPoints numberToString pointsPerChainage pointPattern m)
       = count) /\
  (count = 0%nat <->
     (pointPattern = None \/ pointPattern = Some []) /\
     pointsPerChainage <= 0).
Proof.
  intros Hi _ _ _ _ _ fromM toM distances count. split; [|split; [|split]].
  - intros fuel Hfuel. eexists. split; [|split; [reflexivity|]].
    + unfold generateChainagePoints.
      now apply (stationLoop_returns _ _ _ Hi (length distances)).
    + apply chainages_of_stations.
  - intros m. now apply stationDistances_spec.
  - intros m. apply length_stationPoints.
  - apply pointsOfStation_none.
Qed.

(** From "0+000" to "0+040" every 20 with 3 points per station: three
    stations, each with the offsets -3.5, 0 and 3.5. *)
Lemma C9_stations_on_the_grid_witness :
  generateChainagePoints Example.noNumberToString 3 "0+000" "0+040" 3
    (Some 20) None =
  Some
    [ChainagePoint.mk "0+000" (-3.5)%float "3.5 LHS" (Some LHS);
     ChainagePoint.mk "0+000" 0%float "0+000 CL" (Some CL);
     ChainagePoint.mk "0+000" 3.5%float "3.5 RHS" (Some RHS);
     ChainagePoint.mk "0+020" (-3.5)%float "3.5 LHS" (Some LHS);
     ChainagePoint.mk "0+020" 0%float "0+020 CL" (Some CL);
     ChainagePoint.mk "0+020" 3.5%float "3.5 RHS" (Some RHS);
     ChainagePoint.mk "0+040" (-3.5)%float "3.5 LHS" (Some LHS);
     ChainagePoint.mk "0+040" 0%float "0+040 CL" (Some CL);
     ChainagePoint.mk "0+040" 3.5%float "3.5 RHS" (Some RHS)] /\
  pointsOfStation 3 None = 3%nat.
Proof.
  split; [|reflexivity].
  destruct (proj1 (C9_stations_on_the_grid Example.noNumberToString
                     "0+000" "0+040" 3 (Some 20) None eq_refl
                     ltac:(vm_compute; repeat split; discriminate)
                     ltac:(vm_compute; repeat split; discriminate)
                     ltac:(vm_compute; discriminate)
                     ltac:(vm_compute; discriminate)
                     ltac:(vm_compute; discriminate))
              3%nat (le_n 3))
    as (points & Hgen & Hpoints & _).
  rewrite Hgen, Hpoints. reflexivity.
Defined.

(** C9 as stated fails: with interval 0 the loop stays at "0+000" and no
    number of turns brings it to an end. *)
Lemma C9_zero_interval_never_returns :
  exists interval,
    interval = 0 /\
    forall fuel,
      generateChainagePoints Example.noNumberToString fuel "0+000" "0+040" 3
        (Some interval) None = None.
Proof.
  exists 0. split; [reflexivity|]. intros fuel.
  unfold generateChainagePoints. apply stationLoop_diverges.
  - simpl. lia.
  - vm_compute. discriminate.
Qed.

(** C10, as the code has it.  Formatting the parse of "<km>+<mmm>", [km] a
    non-empty string of digits and [mmm] three digits, of a distance below
    2^53, gives the string in normal form, which is the string itself but
    for the redundant leading zeros of [km].  [parseChainage] is a function
    on all strings.  It is 0 on a string that does not hold exactly one
    "+".  On [a ++ "+" ++ b] each part counts for what [parseInt] reads in
    it, and for 0 when it reads no number; so a missing part counts for
    0. *)
Theorem C10_round_trip_and_defaults :
  (forall km m,
     km <> "" -> allDigits km = true ->
     String.length m = 3%nat -> allDigits m = true ->
     parseChainage (km ++ "+" ++ m) < maxExact ->
     formatChainage (parseChainage (km ++ "+" ++ m)) =
     normalizeChainage (km ++ "+" ++ m) /\
     normalizeChainage (km ++ "+" ++ m) = stripZeros km ++ "+" ++ m) /\
  (forall s, countChar "+" s <> 1%nat -> parseChainage s = 0) /\
  (forall a b,
     countChar "+" a = 0%nat -> countChar "+" b = 0%nat ->
     parseChainage (a ++ "+" ++ b) =
     default 0 (Str.parseInt a) * 1000 + default 0 (Str.parseInt b)) /\
  (forall a,
     countChar "+" a = 0%nat ->
     parseChainage (a ++ "+") = default 0 (Str.parseInt a) * 1000 /\
     parseChainage ("+" ++ a) = default 0 (Str.parseInt a)).
Proof.
  assert (Hparts : forall a b,
            countChar "+" a = 0%nat -> countChar "+" b = 0%nat ->
            parseChainage (a ++ "+" ++ b) =
            default 0 (Str.parseInt a) * 1000 + default 0 (Str.parseInt b)).
  { intros a b Ha Hb. unfold parseChainage.
    change (a ++ "+" ++ b) with (a ++ String "+" b).
    now rewrite (split_at _ a b Ha), (split_whole _ b Hb). }
  split; [|split; [|split]].
  - intros km m Hne Hk Hl Hm _.
    assert (Hnorm : normalizeChainage (km ++ "+" ++ m)
                    = stripZeros km ++ "+" ++ m).
    { unfold normalizeChainage. rewrite (split_chainage km m Hk Hm).
      unfold Str.padStart. rewrite Hl. reflexivity. }
    split; [|exact Hnorm]. rewrite Hnorm.
    unfold parseChainage.
    rewrite (split_chainage km m Hk Hm).
    destruct (meters_roundtrip m Hl Hm) as (Hpm & Hrange & Hpad).
    destruct km as [|c km]; [congruence|].
    rewrite (parseInt_digits c km Hk), Hpm. cbn [default from_option id].
    rewrite formatChainage_parts
      by first [apply of_uint_nonneg | exact Hrange].
    rewrite Hpad, ofZ_of_uint, string_of_unorm.
    + now rewrite (decPrefix_digits _ Hk).
    + intros E. pose proof (decPrefix_digits _ Hk) as H.
      rewrite E in H. discriminate H.
  - intros s Hs. unfold parseChainage.
    pose proof (length_split "+" s) as Hlen.
    destruct (Str.split "+" s) as [|a [|b [|c l]]]; try reflexivity.
    simpl in Hlen. elim Hs. congruence.
  - exact Hparts.
  - intros a Ha. split.
    + rewrite <- (Z.add_0_r (default 0 (Str.parseInt a) * 1000)).
      exact (Hparts a "" Ha eq_refl).
    + exact (Hparts "" a eq_refl Ha).
Qed.

(** "2+460" and "007+050" go round to "2+460" and "7+050"; a string with
    no "+" parses to 0, and one with no metres to its kilometres. *)
Lemma C10_round_trip_and_defaults_witness :
  formatChainage (parseChainage "2+460") = "2+460" /\
  formatChainage (parseChainage "007+050") = "7+050" /\
  parseChainage "2460" = 0 /\
  parseChainage "5+" = 5000.
Proof.
  split; [|split; [|split]].
  - exact (proj1 (proj1 C10_round_trip_and_defaults "2" "460"
                      ltac:(discriminate) eq_refl eq_refl eq_refl eq_refl)).
  - exact (proj1 (proj1 C10_round_trip_and_defaults "007" "050"
                      ltac:(discriminate) eq_refl eq_refl eq_refl eq_refl)).
  - exact (proj1 (proj2 C10_round_trip_and_defaults) "2460"
             ltac:(discriminate)).
  - exact (proj1 (proj2 (proj2 (proj2 C10_round_trip_and_defaults)) "5"
                    eq_refl)).
Defined.

(** C10 as stated fails beyond 2^53.  "9007199254741+001" is well formed
    and in normal form, and the code, which computes in binary64, parses it
    to 9007199254741000 (the sum with 1 is rounded to even) and formats that
    as "9007199254741+000".  Just below 2^53 the round trip still holds. *)
Lemma C10_round_trip_fails_beyond_2_53 :
  allDigits "9007199254741" = true /\ allDigits "001" = true /\
  normalizeChainage "9007199254741+001" = "9007199254741+001" /\
  maxExact <= parseChainage "9007199254741+001" /\
  parseChainage64 "9007199254741+001" = 9007199254741000%float /\
  formatChainage64 Example.noNumberToString
    (parseChainage64 "9007199254741+001") = "9007199254741+000" /\
  formatChainage64 Example.noNumberToString
    (parseChainage64 "9007199254740+991") = "9007199254740+991".
Proof.
  repeat split; try reflexivity. vm_compute. discriminate.
Qed.

End GeneratorClaims.

(** * Further properties *)

(** ** Reduction as a whole *)

Section ReductionExtras.

Local Open Scope nat_scope.

Local Ltac fields :=
  simpl; repeat split; intros;
  first [reflexivity | discriminate | assumption | congruence].

Lemma processRow_sameInputs index st row :
  sameInputs (fst (processRow index st row)) row.
Proof.
  unfold sameInputs, isClosing, processRow.
  destruct (Js.flag (Row.isClosingBM row)) eqn:Hc;
    [|destruct (Js.flag (Row.isCP row))].
  - unfold processClosing.
    destruct (currentHOC st), (Row.fs row) eqn:?, (0 <? index),
      (Row.closingBMValue row) eqn:?; fields.
  - unfold processCP. destruct (Row.cpRL row) eqn:?; fields.
  - unfold processOrdinary.
    destruct (Row.bs row) eqn:?, (currentBM st), (currentHOC st); simpl;
      repeat match goal with
      | |- context [calculateRL ?r ?h] => destruct (calculateRL r h); simpl
      | |- context [calculateDiff ?r] => destruct (calculateDiff r); simpl
      | |- context [match Row.hoc row with _ => _ end] =>
          destruct (Row.hoc row); simpl
      | |- context [match Row.rl row with _ => _ end] =>
          destruct (Row.rl row); simpl
      end; fields.
Qed.

(** X1.  Reduction returns as many rows as it is given, in the same order, and
    on every row it leaves the identity, the label, the readings and the
    change-point and closing data as they were; it writes the design level [d]
    only on a closing row. *)
Theorem processRows_keeps_inputs rows benchmark :
  length (processRows rows benchmark) = length rows /\
  forall i row, rows !! i = Some row ->
    exists r, processRows rows benchmark !! i = Some r /\ sameInputs r row.
Proof.
  split; [apply length_processRows|].
  intros i row Hi. rewrite (processRows_lookup _ _ _ _ Hi).
  eexists. split; [reflexivity|]. apply processRow_sameInputs.
Qed.

Lemma calculateRL_ext r' r h :
  Row.is_ r' = Row.is_ r -> Row.fs r' = Row.fs r ->
  calculateRL r' h = calculateRL r h.
Proof. unfold calculateRL. now intros -> ->. Qed.

Lemma calculateDiff_ext r' r :
  Row.d r' = Row.d r -> Row.rl r' = Row.rl r ->
  calculateDiff r' = calculateDiff r.
Proof. unfold calculateDiff. now intros -> ->. Qed.

Lemma processClosing_again index st row :
  processClosing index st (processClosing index st row) =
  processClosing index st row.
Proof.
  unfold processClosing.
  destruct (currentHOC st), (Row.fs row) eqn:Hf, (0 <? index) eqn:Hi,
    (Row.closingBMValue row) eqn:Hv; simpl; rewrite ?Hf, ?Hi, ?Hv;
    reflexivity.
Qed.

Lemma processCP_again st row :
  processCP st (fst (processCP st row)) = processCP st row.
Proof.
  unfold processCP. destruct (Row.cpRL row) eqn:Hr; simpl; rewrite ?Hr;
    reflexivity.
Qed.

Lemma processOrdinary_again st row :
  processOrdinary st (fst (processOrdinary st row)) = processOrdinary st row.
Proof.
  unfold processOrdinary, calculateRL, calculateDiff, Js.falsy_opt.
  destruct (Row.bs row) eqn:Hb, (currentBM st) eqn:Hbm,
    (currentHOC st) eqn:Hh; simpl; rewrite ?Hb, ?Hbm, ?Hh; simpl;
    repeat match goal with
    | H : ?t = _ |- context [match ?t with _ => _ end] => rewrite H; simpl
    | |- context [Js.truthy ?x] =>
        let E := fresh "E" in destruct (Js.truthy x) eqn:E; simpl; rewrite ?E
    | |- context [match Row.hoc row with _ => _ end] =>
        let E := fresh "E" in destruct (Row.hoc row) eqn:E; simpl; rewrite ?E
    | |- context [match Row.is_ row with _ => _ end] =>
        let E := fresh "E" in destruct (Row.is_ row) eqn:E; simpl; rewrite ?E
    | |- context [match Row.fs row with _ => _ end] =>
        let E := fresh "E" in destruct (Row.fs row) eqn:E; simpl; rewrite ?E
    | |- context [match Row.rl row with _ => _ end] =>
        let E := fresh "E" in destruct (Row.rl row) eqn:E; simpl; rewrite ?E
    | |- context [match Row.d row with _ => _ end] =>
        let E := fresh "E" in destruct (Row.d row) eqn:E; simpl; rewrite ?E
    end; first [reflexivity | congruence].
Qed.

(** The callback applied to its own result, in the same state, changes
    nothing more. *)
Lemma processRow_again index st row :
  processRow index st (fst (processRow index st row)) =
  processRow index st row.
Proof.
  destruct (processRow_sameInputs index st row)
    as (_ & _ & _ & _ & _ & _ & Hcp & _ & _ & _ & Hc & _).
  unfold processRow at 1. rewrite Hc, Hcp. unfold processRow.
  destruct (Js.flag (Row.isClosingBM row));
    [|destruct (Js.flag (Row.isCP row))]; simpl.
  - now rewrite processClosing_again.
  - apply processCP_again.
  - apply processOrdinary_again.
Qed.

Lemma processFrom_again rows : forall index st,
  processFrom index st (processFrom index st rows) = processFrom index st rows.
Proof.
  induction rows as [|row rest IH]; intros index st; simpl; [reflexivity|].
  pose proof (processRow_again index st row) as H.
  destruct (processRow index st row) as [newRow st'] eqn:E. simpl in *.
  rewrite H, IH. reflexivity.
Qed.

(** X2.  Reducing a reduced table again, against the same benchmark, returns
    it unchanged. *)
Theorem processRows_idempotent rows benchmark :
  processRows (processRows rows benchmark) benchmark =
  processRows rows benchmark.
Proof. apply processFrom_again. Qed.

(** X3.  Without a benchmark and without change points nothing is derived:
    rows with no [hoc] and no [rl] on them come back as they are. *)
Theorem processRows_without_benchmark rows :
  Forall (fun r => Js.flag (Row.isCP r) = false /\
                   Row.hoc r = None /\ Row.rl r = None) rows ->
  processRows rows None = rows.
Proof.
  intros H. unfold processRows. generalize 0 as index.
  induction H as [|row rest (Hcp & Hh & Hr) _ IH]; intros index; simpl;
    [reflexivity|].
  unfold processRow, processClosing, processOrdinary. rewrite Hcp. simpl.
  destruct (Js.flag (Row.isClosingBM row)); simpl.
  - now rewrite IH.
  - destruct (Row.bs row); simpl; rewrite Hh, Hr; simpl; now rewrite IH.
Qed.

Lemma processRows_without_benchmark_witness :
  processRows Example.survey None = Example.survey.
Proof.
  apply processRows_without_benchmark.
  repeat constructor.
Defined.

End ReductionExtras.

(** ** Reduction after a change point is planted *)

Section InsertionExtras.

Local Open Scope nat_scope.

Lemma splice_in_insert {A} i (x y orig : A) l :
  l !! i = Some orig ->
  splice_in (i + 1) x (<[i := y]> l) = take i l ++ y :: x :: drop (S i) l.
Proof.
  intros Ho.
  assert (Hi : i < length l) by (eapply lookup_lt_Some; eauto).
  unfold splice_in. rewrite Nat.add_1_r.
  rewrite drop_insert_lt by lia.
  rewrite (take_S_r _ i y) by now apply list_lookup_insert_eq.
  rewrite take_insert_ge by lia.
  now rewrite <- app_assoc.
Qed.

Lemma processFrom_lookup_prefix index st pre post j :
  j < length pre ->
  processFrom index st (pre ++ post) !! j = processFrom index st pre !! j.
Proof.
  intros Hj. rewrite processFrom_app.
  apply lookup_app_l. now rewrite length_processFrom.
Qed.

(** X4.  After a change point is planted on an ordinary row, reduction of the
    new table agrees with the old one before the row, shows the level of the
    change point as the row's rl, gives the inserted row the new height of
    collimation cpRL + newBS, and goes on from there with the change point as
    its benchmark. *)
Theorem reduction_after_insertion now rows i newBS label benchmark
    fsRow f h orig :
  processRows rows benchmark !! i = Some fsRow ->
  Row.fs fsRow = Some f ->
  Row.hoc fsRow = Some h ->
  Js.truthy h = true ->
  rows !! i = Some orig ->
  isClosing orig = false ->
  Js.flag (Row.isCP orig) = false ->
  let out := addChangePoint now rows i newBS label benchmark in
  (forall j, j < i ->
     processRows out benchmark !! j = processRows rows benchmark !! j) /\
  (exists cp,
     processRows out benchmark !! i = Some cp /\
     Row.isCP cp = Some true /\ Row.rl cp = Some (h - f)%float) /\
  (exists p,
     processRows out benchmark !! (i + 1) = Some p /\
     Row.hoc p = Some (h - f + newBS)%float) /\
  stateAfter 0 (initialState benchmark) (take (i + 2) out) =
  {| currentHOC := Some (h - f + newBS)%float;
     currentBM := Some (h - f)%float |}.
Proof.
  intros Hp Hf Hh Ht Ho Hcl Hcp out. subst out.
  rewrite (addChangePoint_success _ _ _ _ _ _ _ _ _ _ Hp Hf Hh Ht Ho).
  rewrite (splice_in_insert _ _ _ _ _ Ho).
  assert (Hi : i < length rows) by (eapply lookup_lt_Some; eauto).
  assert (Hl : length (take i rows) = i) by (rewrite length_take; lia).
  set (cp := updatedFsRowWithCP _ _ _ _ _).
  set (pt := pointRow _ _ _).
  set (st := initialState benchmark).
  assert (Hcprow : processRow i (stateAfter 0 st (take i rows)) cp =
            (Row.with_rl (Some (h - f)%float) cp,
             {| currentHOC := Some (h - f + newBS)%float;
                currentBM := Some (h - f)%float |})).
  { unfold processRow. unfold isClosing in Hcl.
    change (Row.isClosingBM cp) with (Row.isClosingBM orig).
    rewrite Hcl. reflexivity. }
  assert (Hst : stateAfter 0 st (take i rows ++ [cp]) =
            {| currentHOC := Some (h - f + newBS)%float;
               currentBM := Some (h - f)%float |}).
  { rewrite stateAfter_app. simpl. rewrite Hl, Hcprow. reflexivity. }
  assert (Hptrow : processRow (i + 1)
            {| currentHOC := Some (h - f + newBS)%float;
               currentBM := Some (h - f)%float |} pt =
            (Row.with_hoc (Some (h - f + newBS)%float) pt,
             {| currentHOC := Some (h - f + newBS)%float;
                currentBM := Some (h - f)%float |})).
  { unfold processRow. unfold isClosing in Hcl.
    change (Row.isClosingBM pt) with (Row.isClosingBM orig).
    change (Row.isCP pt) with (Row.isCP orig).
    rewrite Hcl, Hcp. unfold processOrdinary, calculateRL. simpl.
    now destruct (Js.truthy (h - f + newBS)). }
  split; [|split; [|split]].
  - intros j Hj. unfold processRows. fold st.
    rewrite processFrom_lookup_prefix by lia.
    rewrite <- (take_drop_middle rows i orig Ho) at 2.
    now rewrite processFrom_lookup_prefix by lia.
  - eexists. unfold processRows. fold st.
    pose proof (processFrom_lookup 0 st (take i rows) cp
                  (pt :: drop (S i) rows)) as H.
    rewrite Hl in H. rewrite H. simpl. rewrite Hcprow.
    split; [reflexivity|]. split; reflexivity.
  - eexists. unfold processRows. fold st.
    pose proof (processFrom_lookup 0 st (take i rows ++ [cp]) pt
                  (drop (S i) rows)) as H.
    rewrite <- app_assoc in H. simpl in H.
    rewrite length_app, Hl in H. simpl in H. rewrite H.
    rewrite Hst, Hptrow. split; reflexivity.
  - replace (take (i + 2) (take i rows ++ cp :: pt :: drop (S i) rows))
      with ((take i rows ++ [cp]) ++ [pt]).
    + rewrite stateAfter_app, Hst. simpl.
      rewrite length_app, Hl. simpl. rewrite Hptrow. reflexivity.
    + rewrite take_app_ge by lia. rewrite Hl.
      replace (i + 2 - i) with 2 by lia. simpl. rewrite take_0.
      now rewrite <- app_assoc.
Qed.

(** The end-to-end scenario: cpRL = 99.5 and the new height of collimation
    is 100.7. *)
Lemma reduction_after_insertion_witness :
  let out :=
    addChangePoint 1700 Example.survey 2 1.2 None (Example.bench 100) in
  (exists cp,
     processRows out (Example.bench 100) !! 2 = Some cp /\
     Row.isCP cp = Some true /\ Row.rl cp = Some 99.5%float) /\
  (exists p,
     processRows out (Example.bench 100) !! 3 = Some p /\
     Row.hoc p = Some 100.7%float).
Proof.
  pose proof (reduction_after_insertion 1700 Example.survey 2 1.2 None
                (Example.bench 100)
                (Row.with_rl (Some 99.5%float)
                   (Row.with_hoc (Some 101.5%float) (Example.fsRow 2)))
                2 101.5 (Example.fsRow 2)
                eq_refl eq_refl eq_refl eq_refl eq_refl eq_refl eq_refl) as H.
  exact (conj (proj1 (proj2 H)) (proj1 (proj2 (proj2 H)))).
Defined.

End InsertionExtras.


(** ** Inserting and removing a change point, exactly *)

Section RoundTripExtras.

Local Open Scope nat_scope.

(** X5.  Planting a change point on a row that carries none and removing it
    again gives back the table with that row's backsight cleared and its
    change point flag set to false; every other field, and every other row, is
    as it was. *)
Theorem insert_then_remove_exact now rows i newBS label benchmark
    fsRow f h orig :
  processRows rows benchmark !! i = Some fsRow ->
  Row.fs fsRow = Some f ->
  Row.hoc fsRow = Some h ->
  Js.truthy h = true ->
  rows !! i = Some orig ->
  noChangePoint orig ->
  deleteChangePoint (addChangePoint now rows i newBS label benchmark) i =
  <[i := Row.with_isCP (Some false) (Row.with_bs None orig)]> rows.
Proof.
  intros Hp Hf Hh Ht Ho (_ & Hl & Hr & Hc).
  rewrite (addChangePoint_success _ _ _ _ _ _ _ _ _ _ Hp Hf Hh Ht Ho).
  rewrite (delete_after_add _ _ _ _ _ _ Ho) by reflexivity.
  f_equal. destruct orig. simpl in *. subst. reflexivity.
Qed.

Lemma insert_then_remove_exact_witness :
  deleteChangePoint
    (addChangePoint 1700 Example.survey 2 1.2 None (Example.bench 100)) 2 =
  [Example.bmRow 1.5; Example.isRow 1.0;
   Row.with_isCP (Some false) (Example.fsRow 2.0)].
Proof.
  exact (insert_then_remove_exact 1700 Example.survey 2 1.2 None
           (Example.bench 100)
           (Row.with_rl (Some 99.5%float)
              (Row.with_hoc (Some 101.5%float) (Example.fsRow 2)))
           2 101.5 (Example.fsRow 2)
           eq_refl eq_refl eq_refl eq_refl eq_refl
           (conj eq_refl (conj eq_refl (conj eq_refl eq_refl)))).
Defined.

End RoundTripExtras.

(** ** Chainage strings, the other way round *)

Section ChainageExtras.

Local Open Scope string_scope.

Lemma allDigits_string_of_uint d :
  allDigits (DecimalString.NilEmpty.string_of_uint d) = true.
Proof. induction d; simpl; auto. Qed.

Lemma decPrefix_string_of_uint d :
  Str.decPrefix (DecimalString.NilEmpty.string_of_uint d) = d.
Proof. induction d; simpl; rewrite ?IHd; reflexivity. Qed.

(** A whole number that is not negative prints as its decimal digits. *)
Lemma ofZ_digits k :
  0 <= k ->
  exists d,
    d <> Decimal.Nil /\
    Str.ofZ k = DecimalString.NilEmpty.string_of_uint d /\
    Z.of_uint d = k.
Proof.
  intros Hk. destruct k as [|p|p]; [| |lia].
  - exists (Decimal.D0 Decimal.Nil). repeat split. discriminate.
  - exists (Pos.to_uint p). split; [apply DecimalPos.Unsigned.to_uint_nonnil|].
    split.
    + unfold Str.ofZ. simpl.
      pose proof (DecimalPos.Unsigned.to_uint_nonnil p).
      now destruct (Pos.to_uint p).
    + unfold Z.of_uint. now rewrite DecimalPos.Unsigned.of_to.
Qed.

Lemma allDigits_app s t :
  allDigits (s ++ t) = (allDigits s && allDigits t)%bool.
Proof.
  induction s as [|c s IH]; simpl; [reflexivity|].
  now rewrite IH, andb_assoc.
Qed.

Lemma allDigits_repeat n : allDigits (Str.repeat "0" n) = true.
Proof. induction n; simpl; auto. Qed.

Lemma of_uint_decPrefix_zeros n s :
  Z.of_uint (Str.decPrefix (Str.repeat "0" n ++ s)) =
  Z.of_uint (Str.decPrefix s).
Proof. induction n; simpl; [reflexivity|exact IHn]. Qed.

(** What [parseInt] reads in a printed number, padded with zeros or not. *)
Lemma parseInt_padStart n k :
  0 <= k -> Str.parseInt (Str.padStart n "0" (Str.ofZ k)) = Some k.
Proof.
  intros Hk. destruct (ofZ_digits k Hk) as (d & Hd & Hs & Hv).
  unfold Str.padStart. set (z := (n - String.length (Str.ofZ k))%nat).
  assert (Hall : allDigits (Str.repeat "0" z ++ Str.ofZ k) = true).
  { rewrite allDigits_app, allDigits_repeat, Hs.
    apply allDigits_string_of_uint. }
  assert (Hne : exists c s, Str.repeat "0" z ++ Str.ofZ k = String c s).
  { destruct z; simpl; [|eauto]. rewrite Hs.
    destruct d; try congruence; simpl; eauto. }
  destruct Hne as (c & s & E). rewrite E in Hall.
  rewrite E, (parseInt_digits c s Hall), <- E.
  now rewrite of_uint_decPrefix_zeros, Hs, decPrefix_string_of_uint, Hv.
Qed.

Lemma allDigits_padStart n k :
  0 <= k -> allDigits (Str.padStart n "0" (Str.ofZ k)) = true.
Proof.
  intros Hk. destruct (ofZ_digits k Hk) as (d & _ & Hs & _).
  unfold Str.padStart.
  now rewrite allDigits_app, allDigits_repeat, Hs, allDigits_string_of_uint.
Qed.

Lemma parseChainage_formatChainage n :
  0 <= n -> parseChainage (formatChainage n) = n.
Proof.
  intros Hn. unfold formatChainage, parseChainage.
  assert (Hkm : 0 <= n / 1000) by (apply Z.div_pos; lia).
  assert (Hm : 0 <= Z.rem n 1000)
    by (rewrite Z.rem_mod_nonneg by lia; apply Z.mod_pos_bound; lia).
  rewrite split_chainage.
  - pose proof (parseInt_padStart 0 (n / 1000) Hkm) as Hp.
    unfold Str.padStart in Hp. simpl in Hp. rewrite Hp.
    rewrite (parseInt_padStart 3 _ Hm). cbn [default from_option id].
    rewrite Z.rem_mod_nonneg by lia.
    rewrite (Z.div_mod n 1000) at 3 by lia. lia.
  - pose proof (allDigits_padStart 0 (n / 1000) Hkm) as Hp.
    unfold Str.padStart in Hp. simpl in Hp. exact Hp.
  - now apply allDigits_padStart.
Qed.

(** X6.  A whole distance that is not negative and is below 2^53, the range
    in which the code computes exactly, survives formatting and parsing; so
    two such distances with the same text are the same distance. *)
Theorem parse_format_chainage n :
  0 <= n < maxExact ->
  parseChainage (formatChainage n) = n /\
  forall m, 0 <= m < maxExact -> formatChainage m = formatChainage n -> m = n.
Proof.
  intros [Hn _]. split; [now apply parseChainage_formatChainage|].
  intros m [Hm _] H.
  rewrite <- (parseChainage_formatChainage m Hm), H.
  now apply parseChainage_formatChainage.
Qed.

Lemma parse_format_chainage_witness :
  formatChainage 2460 = "2+460" /\ parseChainage (formatChainage 2460) = 2460.
Proof.
  split; [reflexivity|].
  exact (proj1 (parse_format_chainage 2460
                  ltac:(split; [discriminate|reflexivity]))).
Defined.

End ChainageExtras.

(** ** The generator on a reversed range and under a pattern *)

Section GeneratorExtras.

Variable numberToString : float -> string.


Lemma stationLoop_ext fuel body body' toM interval : forall m,
  (forall x, body x = body' x) ->
  stationLoop fuel body m toM interval = stationLoop fuel body' m toM interval.
Proof.
  induction fuel as [|fuel IH]; intros m H; simpl; [reflexivity|].
  destruct (m <=? toM); [|reflexivity]. now rewrite H, (IH _ H).
Qed.



End GeneratorExtras.



(** ** The effect that keeps the closing row *)

Section ClosingExtras.

Local Open Scope nat_scope.

Lemma closingIndexesFrom_app i pre post :
  closingIndexesFrom i (pre ++ post) =
  closingIndexesFrom i pre ++ closingIndexesFrom (i + length pre) post.
Proof.
  revert i. induction pre as [|r pre IH]; intros i; simpl.
  - now rewrite Nat.add_0_r.
  - rewrite IH, Nat.add_succ_r. now destruct (isClosing r).
Qed.

Lemma closingIndexesFrom_nil i rows :
  closingIndexesFrom i rows = [] <->
  Forall (fun r => notClosing r = true) rows.
Proof.
  revert i. induction rows as [|r rows IH]; intros i; simpl.
  - split; [constructor|reflexivity].
  - unfold notClosing at 1. destruct (isClosing r) eqn:E; split.
    + discriminate.
    + intros H. inversion H as [|? ? Hr _]. unfold notClosing in Hr.
      rewrite E in Hr. discriminate.
    + intros H. constructor; [unfold notClosing; now rewrite E|].
      now apply (IH (S i)).
    + intros H. inversion H. now apply (IH (S i)).
Qed.

Lemma closingIndexesFrom_bound i rows k :
  In k (closingIndexesFrom i rows) -> i <= k < i + length rows.
Proof.
  revert i. induction rows as [|r rows IH]; intros i; simpl; [tauto|].
  destruct (isClosing r); simpl; intros H.
  - destruct H as [<-|H]; [lia|]. apply IH in H. lia.
  - apply IH in H. lia.
Qed.

Lemma filter_notClosing_nil rows :
  Forall (fun r => notClosing r = true) rows ->
  List.filter isClosing rows = [].
Proof.
  induction 1 as [|r rows Hr _ IH]; simpl; [reflexivity|].
  unfold notClosing in Hr. now destruct (isClosing r).
Qed.

(** The last index the loop collects is that of the last closing row. *)
Lemma last_closingIndex rows :
  match last (closingIndexesFrom 0 rows) with
  | Some k => exists c, rows !! k = Some c /\ isClosing c = true /\
                        last (List.filter isClosing rows) = Some c
  | None => List.filter isClosing rows = []
  end.
Proof.
  induction rows as [|x pre IH] using rev_ind; [reflexivity|].
  rewrite closingIndexesFrom_app, List.filter_app. simpl.
  destruct (isClosing x) eqn:E.
  - rewrite last_snoc. exists x. split; [|split; [exact E|]].
    + now rewrite lookup_app_r, Nat.sub_diag by lia.
    + now rewrite last_snoc.
  - rewrite !app_nil_r.
    destruct (last (closingIndexesFrom 0 pre)) as [k|] eqn:El; [|exact IH].
    destruct IH as (c & Hc & Hcl & Hlast). exists c.
    split; [|split; assumption].
    now apply lookup_app_l_Some.
Qed.

Lemma closedAtEnd_indexes rows :
  closedAtEnd rows ->
  closingIndexesFrom 0 rows = [length rows - 1] /\ 0 < length rows.
Proof.
  intros (pre & c & -> & Hc & Hpre).
  rewrite closingIndexesFrom_app. simpl. rewrite Hc.
  rewrite (proj2 (closingIndexesFrom_nil 0 pre) Hpre).
  rewrite length_app. simpl. split; [f_equal; lia|lia].
Qed.

Lemma closedAtEnd_rests now rows :
  closedAtEnd rows -> closingRowEffect now rows = None.
Proof.
  intros H. unfold closingRowEffect.
  destruct (closedAtEnd_indexes rows H) as [-> Hlen]. simpl.
  destruct (Z.eqb_spec (Z.of_nat (length rows - 1))
              (Z.of_nat (length rows) - 1)); [reflexivity|lia].
Qed.

Lemma closingRowEffect_shape now rows next :
  closingRowEffect now rows = Some next ->
  exists c,
    isClosing c = true /\
    c = default (freshClosingRow now) (last (List.filter isClosing rows)) /\
    next = List.filter notClosing rows ++ [c].
Proof.
  unfold closingRowEffect.
  set (idx := closingIndexesFrom 0 rows).
  destruct (negb _ && negb _ && negb _)%bool; [discriminate|].
  intros [= <-].
  assert (Hc : exists c,
            (if length idx =? 0 then Some (freshClosingRow now)
             else match last idx with
                  | Some i => rows !! i
                  | None => None
                  end) = Some c /\ isClosing c = true /\
            c = default (freshClosingRow now)
                  (last (List.filter isClosing rows))).
  { pose proof (last_closingIndex rows) as H. fold idx in H.
    destruct idx as [|k l] eqn:E.
    - simpl in *. rewrite H. simpl. eauto.
    - destruct (last (k :: l)) as [j|] eqn:Hl.
      + destruct H as (c & Hc & Hcl & Hlast). exists c. simpl.
        rewrite Hc, Hlast. auto.
      + apply last_None in Hl. discriminate. }
  destruct Hc as (c & -> & Hcl & Hdef). simpl. eauto.
Qed.

Lemma Forall_filter_notClosing rows :
  Forall (fun r => notClosing r = true) (List.filter notClosing rows).
Proof.
  apply Forall_forall. intros r Hr.
  apply list_elem_of_In, filter_In in Hr. tauto.
Qed.

(** X9.  The effect has nothing to do exactly on the tables that hold one
    closing row, as their last row. *)
Theorem closingRowEffect_rests_iff now rows :
  closingRowEffect now rows = None <-> closedAtEnd rows.
Proof.
  split; [|apply closedAtEnd_rests].
  unfold closingRowEffect.
  destruct rows as [|x pre _] using rev_ind; [discriminate|].
  rewrite closingIndexesFrom_app. simpl. rewrite length_app. simpl.
  destruct (isClosing x) eqn:E.
  - rewrite last_snoc, length_app. simpl.
    destruct (closingIndexesFrom 0 pre) as [|k l] eqn:El.
    + intros _. exists pre, x. split; [reflexivity|]. split; [exact E|].
      now apply (closingIndexesFrom_nil 0).
    + simpl. replace (length l + 1) with (S (length l)) by lia. simpl.
      rewrite andb_false_r. discriminate.
  - rewrite app_nil_r.
    destruct (closingIndexesFrom 0 pre) as [|k l] eqn:El;
      [discriminate|].
    assert (Hin : exists j, last (k :: l) = Some j /\ In j (k :: l)).
    { destruct (last (k :: l)) as [j|] eqn:Hl.
      - exists j. split; [reflexivity|].
        apply list_elem_of_In, last_Some_elem_of. exact Hl.
      - apply last_None in Hl. discriminate. }
    destruct Hin as (j & Hj & Hin). rewrite Hj.
    rewrite <- El in Hin. apply closingIndexesFrom_bound in Hin.
    match goal with
    | |- context [(?a =? ?b)%Z] => destruct (Z.eqb_spec a b) as [Heq|_]
    end; [rewrite length_app in Heq; simpl in Heq; lia|].
    simpl. discriminate.
Qed.

(** X10.  When the effect updates the rows, the new table holds every row that
    is not a closing row, in the old order, and then one closing row: the last
    closing row of the old table, or a fresh one when there was none. *)
Theorem closingRowEffect_result now rows next :
  closingRowEffect now rows = Some next ->
  closedAtEnd next /\
  List.filter notClosing next = List.filter notClosing rows /\
  last next =
    Some (default (freshClosingRow now) (last (List.filter isClosing rows))).
Proof.
  intros H.
  destruct (closingRowEffect_shape now rows next H) as (c & Hcl & Hdef & ->).
  split; [|split].
  - exists (List.filter notClosing rows), c.
    split; [reflexivity|]. split; [exact Hcl|].
    apply Forall_filter_notClosing.
  - rewrite List.filter_app. simpl. unfold notClosing at 3. rewrite Hcl. simpl.
    rewrite app_nil_r. apply filter_id, Forall_filter_notClosing.
  - rewrite last_snoc. now rewrite Hdef.
Qed.

(** X11.  The effect settles: on the rows it has stored it finds nothing more
    to do, so the update it causes does not set it off again. *)
Theorem closingRowEffect_settles now now' rows next :
  closingRowEffect now rows = Some next ->
  closingRowEffect now' next = None.
Proof.
  intros H.
  destruct (closingRowEffect_shape now rows next H) as (c & Hcl & _ & ->).
  apply closedAtEnd_rests.
  exists (List.filter notClosing rows), c.
  split; [reflexivity|]. split; [exact Hcl|].
  apply Forall_filter_notClosing.
Qed.

Lemma closingRowEffect_result_witness :
  closingRowEffect 1700 [Example.bmRow 1.5; Example.closingRow; Example.isRow 1]
    = Some [Example.bmRow 1.5; Example.isRow 1; Example.closingRow] /\
  closedAtEnd [Example.bmRow 1.5; Example.isRow 1; Example.closingRow].
Proof.
  split; [reflexivity|].
  exact (proj1 (closingRowEffect_result 1700
                  [Example.bmRow 1.5; Example.closingRow; Example.isRow 1]
                  _ eq_refl)).
Defined.

Lemma closingRowEffect_settles_witness :
  closingRowEffect 1700 Example.survey
    = Some (Example.survey ++ [freshClosingRow 1700]) /\
  closingRowEffect 1701 (Example.survey ++ [freshClosingRow 1700]) = None.
Proof.
  split; [reflexivity|].
  exact (closingRowEffect_settles 1700 1701 Example.survey _ eq_refl).
Defined.

Lemma closedAtEnd_inv pre c rows :
  rows = pre ++ [c] -> isClosing c = true ->
  Forall (fun r => notClosing r = true) pre ->
  forall i r, rows !! i = Some r -> isClosing r = false -> i < length pre.
Proof.
  intros -> Hc Hpre i r Hi Hr.
  destruct (Nat.lt_ge_cases i (length pre)) as [|Hge]; [assumption|].
  rewrite lookup_app_r in Hi by exact Hge.
  destruct (i - length pre) as [|n]; simpl in Hi; [|discriminate].
  injection Hi as <-. congruence.
Qed.

(** X12.  Planting a change point on a row that is not the closing row keeps
    the closing row in its place: one closing row, the last of the table. *)
Theorem addChangePoint_keeps_closing_row now rows i newBS label benchmark :
  closedAtEnd rows ->
  (forall orig, rows !! i = Some orig -> isClosing orig = false) ->
  closedAtEnd (addChangePoint now rows i newBS label benchmark).
Proof.
  intros Hrows Horig. unfold addChangePoint.
  destruct (processRows rows benchmark !! i) as [fsRow|]; [|exact Hrows].
  destruct (Row.fs fsRow) as [f|]; [|exact Hrows].
  destruct (Js.falsy_opt (Row.hoc fsRow)); [exact Hrows|].
  destruct (Row.hoc fsRow) as [h|]; [|exact Hrows].
  destruct (rows !! i) as [orig|] eqn:Ho; [|exact Hrows].
  specialize (Horig orig eq_refl).
  rewrite (splice_in_insert _ _ _ _ _ Ho).
  destruct Hrows as (pre & c & Hrows & Hc & Hpre).
  pose proof (closedAtEnd_inv pre c rows Hrows Hc Hpre i orig Ho Horig) as Hi.
  subst rows.
  match goal with
  | |- closedAtEnd (_ ++ ?cp :: ?pt :: _) =>
      exists (take i pre ++ cp :: pt :: drop (S i) pre), c
  end.
  split; [|split; [exact Hc|]].
  - rewrite take_app_le, drop_app_le by lia.
    rewrite <- !app_assoc. reflexivity.
  - assert (Hn : notClosing orig = true)
      by (unfold notClosing; now rewrite Horig).
    apply Forall_app. split; [now apply Forall_take|].
    constructor; [exact Hn|]. constructor; [exact Hn|].
    now apply Forall_drop.
Qed.

Lemma addChangePoint_keeps_closing_row_witness :
  closedAtEnd
    (addChangePoint 1700 (Example.survey ++ [Example.closingRow]) 2 1.2 None
       (Example.bench 100)) /\
  length
    (addChangePoint 1700 (Example.survey ++ [Example.closingRow]) 2 1.2 None
       (Example.bench 100)) = 5.
Proof.
  split; [|reflexivity].
  apply addChangePoint_keeps_closing_row.
  - exists Example.survey, Example.closingRow.
    split; [reflexivity|]. split; [reflexivity|]. repeat constructor.
  - intros orig [= <-]. reflexivity.
Defined.

(** X13.  Removing a change point keeps the closing row in its place, provided
    the identity of a closing row does not read as that of a pushed row. *)
Theorem deleteChangePoint_keeps_closing_row rows i :
  closedAtEnd rows ->
  (forall c, In c rows -> isClosing c = true ->
     Str.includes "-pushed" (Row.id c) = false) ->
  closedAtEnd (deleteChangePoint rows i).
Proof.
  intros Hrows Hid. unfold deleteChangePoint.
  destruct (rows !! i) as [cp|] eqn:Hcp; [|exact Hrows].
  destruct (negb (Js.flag (Row.isCP cp))); [exact Hrows|].
  destruct (length rows <=? i + 1) eqn:Hlen; [exact Hrows|].
  apply Nat.leb_gt in Hlen.
  assert (Hins : forall ch, closedAtEnd (<[i := restoredFsRow cp ch]> rows)).
  { intros ch. destruct Hrows as (pre & c & -> & Hc & Hpre).
    rewrite length_app in Hlen. simpl in Hlen.
    exists (<[i := restoredFsRow cp ch]> pre), c.
    split; [|split; [exact Hc|]].
    - apply insert_app_l. lia.
    - apply Forall_insert; [exact Hpre|].
      rewrite lookup_app_l in Hcp by lia.
      apply (Forall_lookup_1 _ _ _ _ Hpre) in Hcp. exact Hcp. }
  destruct (rows !! (i + 1)) as [p|] eqn:Hp; [|apply Hins].
  destruct (Str.includes "-pushed" (Row.id p)) eqn:Hpushed; simpl;
    [|apply Hins].
  assert (Hpn : isClosing p = false).
  { destruct (isClosing p) eqn:E; [|reflexivity].
    rewrite Hid in Hpushed; [discriminate| |exact E].
    apply list_elem_of_In, list_elem_of_lookup. eauto. }
  destruct Hrows as (pre & c & Hrows & Hc & Hpre).
  pose proof (closedAtEnd_inv pre c rows Hrows Hc Hpre (i + 1) p Hp Hpn) as Hi.
  subst rows. unfold splice_out.
  exists (take (i + 1) (<[i := restoredFsRow cp
                                (Str.or_else (Row.chainage p) "")]> pre)
          ++ drop (S (i + 1)) pre), c.
  split; [|split; [exact Hc|]].
  - rewrite insert_app_l by lia.
    rewrite take_app_le by (rewrite length_insert; lia).
    rewrite drop_app_le by (rewrite length_insert; lia).
    rewrite drop_insert_lt by lia.
    now rewrite <- app_assoc.
  - apply Forall_app. split; [|now apply Forall_drop].
    apply Forall_take, Forall_insert; [exact Hpre|].
    rewrite lookup_app_l in Hcp by lia.
    apply (Forall_lookup_1 _ _ _ _ Hpre) in Hcp. exact Hcp.
Qed.

Lemma deleteChangePoint_keeps_closing_row_witness :
  let rows :=
    addChangePoint 1700 (Example.survey ++ [Example.closingRow]) 2 1.2 None
      (Example.bench 100) in
  closedAtEnd (deleteChangePoint rows 2) /\ length (deleteChangePoint rows 2) = 4.
Proof.
  split; [|reflexivity].
  apply deleteChangePoint_keeps_closing_row.
  - exists (take 4 (addChangePoint 1700 (Example.survey ++ [Example.closingRow])
                    2 1.2 None (Example.bench 100))), Example.closingRow.
    split; [reflexivity|]. split; [reflexivity|]. repeat constructor.
  - intros c Hin Hc. vm_compute in Hin.
    repeat (destruct Hin as [<-|Hin]; [first [discriminate Hc | reflexivity]|]).
    destruct Hin.
Defined.

End ClosingExtras.

(** ** Applying a point pattern, again *)

Section PatternExtras.

Local Open Scope nat_scope.

Variable numberToString : float -> string.

Lemma relabel_app pts m1 m2 : forall k,
  relabel pts k (m1 ++ m2) =
  (fst (relabel pts k m1) ++ fst (relabel pts (snd (relabel pts k m1)) m2),
   snd (relabel pts (snd (relabel pts k m1)) m2)).
Proof.
  induction m1 as [|r rest IH]; intros k; simpl.
  - now destruct (relabel pts k m2).
  - destruct (Js.flag (Row.isCP r)).
    + rewrite (IH k). now destruct (relabel pts k rest).
    + destruct (pts !! k).
      * rewrite (IH (k + 1)). now destruct (relabel pts (k + 1) rest).
      * rewrite (IH k). now destruct (relabel pts k rest).
Qed.

Lemma relabel_snd_le pts middle : forall k,
  k <= length pts -> snd (relabel pts k middle) <= length pts.
Proof.
  induction middle as [|r rest IH]; intros k Hk; simpl; [exact Hk|].
  destruct (Js.flag (Row.isCP r)).
  - specialize (IH k Hk). now destruct (relabel pts k rest).
  - destruct (pts !! k) eqn:E.
    + apply lookup_lt_Some in E. specialize (IH (k + 1) ltac:(lia)).
      now destruct (relabel pts (k + 1) rest).
    + specialize (IH k Hk). now destruct (relabel pts k rest).
Qed.

Lemma sameLabels_lookup pts pts' k :
  Forall2 sameLabels pts pts' ->
  match pts !! k, pts' !! k with
  | Some p, Some p' => sameLabels p p'
  | None, None => True
  | _, _ => False
  end.
Proof.
  intros H. revert k. induction H as [|p p' l l' Hp _ IH]; intros k.
  - reflexivity.
  - destruct k as [|k]; simpl; [exact Hp|apply IH].
Qed.

Lemma relabelRow_again p p' r :
  sameLabels p p' -> relabelRow p' (relabelRow p r) = relabelRow p r.
Proof.
  intros [H1 H2]. unfold relabelRow. rewrite <- H1, <- H2. reflexivity.
Qed.

Lemma relabelRow_appended p p' :
  sameLabels p p' -> relabelRow p' (appendedRow p) = appendedRow p.
Proof.
  intros [H1 H2]. unfold relabelRow. rewrite <- H1, <- H2. reflexivity.
Qed.

(** Rows relabelled from one list of stations are left as they are by a
    second pass with stations of the same labels. *)
Lemma relabel_again pts pts' middle :
  Forall2 sameLabels pts pts' ->
  forall k, relabel pts' k (fst (relabel pts k middle)) = relabel pts k middle.
Proof.
  intros Hsame. induction middle as [|r rest IH]; intros k; simpl;
    [reflexivity|].
  destruct (Js.flag (Row.isCP r)) eqn:Hcp.
  - specialize (IH k). destruct (relabel pts k rest) as [o k1]. simpl in *.
    now rewrite Hcp, IH.
  - pose proof (sameLabels_lookup pts pts' k Hsame) as Hk.
    destruct (pts !! k) as [p|], (pts' !! k) as [p'|] eqn:E';
      try contradiction.
    + specialize (IH (k + 1)).
      destruct (relabel pts (k + 1) rest) as [o k1]. simpl in *.
      rewrite Hcp, E', IH. now rewrite relabelRow_again.
    + specialize (IH k). destruct (relabel pts k rest) as [o k1]. simpl in *.
      now rewrite Hcp, E', IH.
Qed.

(** The blank rows made of the stations from [k] on take these stations'
    labels again, and use all of them up. *)
Lemma relabel_appended pts pts' :
  Forall2 sameLabels pts pts' ->
  forall n k, length pts - k = n -> k <= length pts ->
  relabel pts' k (map appendedRow (drop k pts)) =
  (map appendedRow (drop k pts), length pts).
Proof.
  intros Hsame. induction n as [|n IH]; intros k Hn Hk.
  - rewrite drop_ge by lia. simpl. f_equal. lia.
  - pose proof (sameLabels_lookup pts pts' k Hsame) as Hl.
    destruct (pts !! k) as [p|] eqn:E;
      [|apply lookup_ge_None in E; lia].
    destruct (pts' !! k) as [p'|] eqn:E'; [|contradiction].
    rewrite (drop_S _ _ _ E). simpl. rewrite E'.
    replace (k + 1) with (S k) by lia.
    rewrite (IH (S k)) by lia.
    now rewrite relabelRow_appended.
Qed.

Lemma find_isClosing_app pre post :
  Forall (fun r => notClosing r = true) pre ->
  List.find isClosing (pre ++ post) = List.find isClosing post.
Proof.
  induction 1 as [|r pre Hr _ IH]; simpl; [reflexivity|].
  unfold notClosing in Hr. now destruct (isClosing r).
Qed.

Lemma find_isClosing_option rest :
  List.find isClosing (option_list (List.find isClosing rest)) =
  List.find isClosing rest.
Proof.
  destruct (List.find isClosing rest) as [c|] eqn:E; [|reflexivity].
  apply find_some in E as [_ E]. simpl. now rewrite E.
Qed.

Lemma filter_notClosing_option rest :
  List.filter notClosing (option_list (List.find isClosing rest)) = [].
Proof.
  destruct (List.find isClosing rest) as [c|] eqn:E; [|reflexivity].
  apply find_some in E as [_ E]. simpl. unfold notClosing. now rewrite E.
Qed.

Lemma Forall_appended pts :
  Forall (fun r => notClosing r = true) (map appendedRow pts).
Proof.
  apply Forall_forall. intros r Hr.
  apply list_elem_of_In, in_map_iff in Hr as (p & <- & _). reflexivity.
Qed.

(** Applying the rows of a second regeneration, whose stations carry the
    same labels, to rows a pattern was applied to changes nothing. *)
Lemma applyPatternRows_again bm rest b pts b' pts' :
  notClosing bm = true ->
  Forall2 sameLabels pts pts' ->
  applyPatternRows (applyPatternRows (bm :: rest) (b :: pts)) (b' :: pts') =
  applyPatternRows (bm :: rest) (b :: pts).
Proof.
  intros Hbm Hsame.
  rewrite (applyPatternRows_shape bm rest (b :: pts) Hbm).
  change (drop 1 (b :: pts)) with pts.
  set (middle := List.filter notClosing rest).
  pose proof (relabel_rest pts middle 0 (Nat.le_0_l _)) as Hrest.
  pose proof (relabel_snd_le pts middle 0 (Nat.le_0_l _)) as Hle.
  pose proof (relabel_notClosing pts middle 0 (Forall_filter_notClosing rest))
    as Hnc.
  pose proof (relabel_again pts pts' middle Hsame 0) as Hagain.
  simpl in Hrest. rewrite <- Hrest.
  destruct (relabel pts 0 middle) as [nextMiddle k] eqn:Hrel.
  simpl in Hle, Hnc, Hagain |- *.
  set (appended := map appendedRow (drop k pts)).
  set (closing := option_list (List.find isClosing rest)).
  rewrite (applyPatternRows_shape bm (nextMiddle ++ appended ++ closing)
             (b' :: pts') Hbm).
  change (drop 1 (b' :: pts')) with pts'.
  assert (Hmid : List.filter notClosing (nextMiddle ++ appended ++ closing)
                 = nextMiddle ++ appended).
  { rewrite !List.filter_app. unfold closing, appended.
    rewrite filter_notClosing_option, app_nil_r.
    rewrite (filter_id _ _ Hnc).
    now rewrite (filter_id _ _ (Forall_appended _)). }
  rewrite Hmid.
  assert (Hsecond : relabel pts' 0 (nextMiddle ++ appended)
                    = (nextMiddle ++ appended, length pts)).
  { rewrite relabel_app, Hagain. simpl. unfold appended.
    now rewrite (relabel_appended pts pts' Hsame (length pts - k) k eq_refl Hle). }
  pose proof (relabel_rest pts' (nextMiddle ++ appended) 0 (Nat.le_0_l _))
    as Hrest'.
  rewrite Hsecond in Hrest'. simpl in Hrest'.
  rewrite <- Hrest', Hsecond. simpl fst.
  rewrite drop_ge by (apply Forall2_length in Hsame; lia).
  simpl map. simpl app at 3.
  rewrite app_assoc, find_isClosing_app.
  - unfold closing. now rewrite find_isClosing_option, <- app_assoc.
  - apply Forall_app. split; [exact Hnc|apply Forall_appended].
Qed.

Lemma sameLabels_imap {A} (f g : nat -> A -> Row.t) points :
  (forall i x, sameLabels (f i x) (g i x)) ->
  Forall2 sameLabels (imap f points) (imap g points).
Proof.
  revert f g. induction points as [|x l IH]; intros f g H; simpl;
    constructor; [apply H|].
  apply IH. intros i y. apply H.
Qed.

(** X14.  Applying the same pattern text a second time changes nothing: the
    project stored by the first application is stored again, whatever the
    clock reads (the regenerated rows differ in their identities only, and no
    row is left to take one).  Row 0 is taken not to be the closing row. *)
Theorem handleApplyPattern_twice fuel clock clock' project patternText
    project' :
  (forall r0, Project.rows project !! 0 = Some r0 -> notClosing r0 = true) ->
  handleApplyPattern numberToString fuel clock project patternText
    = Some project' ->
  handleApplyPattern numberToString fuel clock' project' patternText
    = Some project'.
Proof.
  intros Hbm. unfold handleApplyPattern.
  destruct (parsePattern patternText) as [|l ls] eqn:Hparsed.
  - intros [= <-]. reflexivity.
  - set (parsed := l :: ls). unfold generateTableRows. simpl.
    destruct (generateChainagePoints numberToString fuel
                (Project.fromChainage project) (Project.toChainage project)
                (Project.pointsPerChainage project)
                (Some (Project.chainageInterval project)) (Some parsed))
      as [points|] eqn:Hgen; [|discriminate].
    intros [= <-]. simpl. rewrite Hgen. f_equal.
    match goal with
    | |- Project.with_rows
           (applyPatternRows (applyPatternRows _ (?b :: ?pts)) (?b' :: ?pts'))
           _ = _ =>
        assert (Hrows :
          applyPatternRows
            (applyPatternRows (Project.rows project) (b :: pts)) (b' :: pts')
          = applyPatternRows (Project.rows project) (b :: pts))
    end.
    { destruct (Project.rows project) as [|bm rest] eqn:Hr.
      - match goal with
        | |- applyPatternRows (applyPatternRows [] (?b :: ?pts)) _ = _ =>
            change (applyPatternRows [] (b :: pts))
              with (applyPatternRows [b] (b :: pts))
        end.
        apply applyPatternRows_again; [reflexivity|].
        apply sameLabels_imap. intros i x. split; reflexivity.
      - apply applyPatternRows_again; [now apply Hbm|].
        apply sameLabels_imap. intros i x. split; reflexivity. }
    rewrite Hrows. destruct project. reflexivity.
Qed.

End PatternExtras.

Lemma handleApplyPattern_twice_witness :
  exists project',
    handleApplyPattern Example.noNumberToString 2 Example.clock
      Example.project "3.5 LHS, CL" = Some project' /\
    length (Project.rows project') = 7%nat /\
    handleApplyPattern Example.noNumberToString 2
      (fun k => 1800 + Z.of_nat k) project' "3.5 LHS, CL" = Some project'.
Proof.
  eexists. split; [vm_compute; reflexivity|]. split; [reflexivity|].
  apply (handleApplyPattern_twice Example.noNumberToString 2 Example.clock
           (fun k => 1800 + Z.of_nat k) Example.project "3.5 LHS, CL").
  - intros r0 [= <-]. reflexivity.
  - vm_compute. reflexivity.
Defined.

Section PatternClosingExtras.

Variable numberToString : float -> string.

(** X15.  Applying a pattern to a table that ends in its one closing row gives
    a table that ends in the same closing row, and in no other: the effect
    that keeps the closing row finds nothing to do afterwards. *)
Theorem handleApplyPattern_keeps_closing_row fuel clock project patternText
    project' :
  closedAtEnd (Project.rows project) ->
  handleApplyPattern numberToString fuel clock project patternText
    = Some project' ->
  closedAtEnd (Project.rows project') /\
  last (Project.rows project') = last (Project.rows project) /\
  forall now, closingRowEffect now (Project.rows project') = None.
Proof.
  intros Hrows Happ.
  assert (H : closedAtEnd (Project.rows project') /\
              last (Project.rows project') = last (Project.rows project));
    [|destruct H as [H1 H2]; split; [exact H1|]; split; [exact H2|];
      intros now; now apply closedAtEnd_rests].
  revert Happ. unfold handleApplyPattern.
  destruct (parsePattern patternText) as [|l ls].
  - intros [= <-]. split; [exact Hrows|reflexivity].
  - destruct (generateTableRows _ _ _ _) as [regenerated|]; [|discriminate].
    intros [= <-]. simpl Project.rows.
    destruct Hrows as (pre & c & Hrows & Hc & Hpre).
    unfold applyPatternRows. rewrite Hrows.
    rewrite (find_isClosing_app pre [c] Hpre). simpl List.find. rewrite Hc.
    destruct (relabel _ _ _) as [nextMiddle pointIndex].
    rewrite !last_snoc. split; [|reflexivity].
    eexists _, c. split; [reflexivity|]. split; [exact Hc|].
    apply Forall_filter_notClosing.
Qed.

End PatternClosingExtras.

Lemma handleApplyPattern_keeps_closing_row_witness :
  exists project',
    handleApplyPattern Example.noNumberToString 2 Example.clock
      Example.project "3.5 LHS, CL" = Some project' /\
    last (Project.rows project') = Some Example.closingRow /\
    closedAtEnd (Project.rows project').
Proof.
  eexists. split; [vm_compute; reflexivity|]. split; [reflexivity|].
  apply (handleApplyPattern_keeps_closing_row Example.noNumberToString 2
           Example.clock Example.project "3.5 LHS, CL").
  - exists (take 5 (Project.rows Example.project)), Example.closingRow.
    split; [reflexivity|]. split; [reflexivity|]. repeat constructor.
  - vm_compute. reflexivity.
Defined.

(** ** The stored projects *)

Section StorageExtras.

Local Open Scope nat_scope.

Lemma saveProject_cons now x rest project :
  saveProject now (x :: rest) project =
  if String.eqb (Project.id x) (Project.id project)
  then with_updatedAt now project :: rest
  else x :: saveProject now rest project.
Proof.
  unfold saveProject. simpl.
  destruct (String.eqb (Project.id x) (Project.id project)); [reflexivity|].
  now destruct (findIndex _ rest).
Qed.


(** X16.  Looking a project up after a save: the saved project is found under
    its id, with the time of the save as [updatedAt], also when the id was
    stored more than once; every other id gives what it gave before. *)
Theorem getProject_after_saveProject now projects project id :
  getProject (saveProject now projects project) id =
  if String.eqb (Project.id project) id
  then Some (with_updatedAt now project)
  else getProject projects id.
Proof.
  induction projects as [|x rest IH].
  - unfold saveProject, getProject. simpl.
    now destruct (String.eqb (Project.id project) id).
  - rewrite saveProject_cons.
    destruct (String.eqb_spec (Project.id x) (Project.id project)) as [Hx|Hx].
    + unfold getProject. simpl. rewrite Hx.
      now destruct (String.eqb (Project.id project) id).
    + unfold getProject in *. simpl. rewrite IH.
      destruct (String.eqb_spec (Project.id x) id) as [Hi|Hi];
        [|reflexivity].
      destruct (String.eqb_spec (Project.id project) id); [congruence|].
      reflexivity.
Qed.

(** X17.  Looking a project up after a deletion: the deleted id is not found,
    however often it was stored, and every other id gives what it gave before. *)
Theorem getProject_after_deleteProject projects id id' :
  getProject (deleteProject projects id) id' =
  if String.eqb id id' then None else getProject projects id'.
Proof.
  unfold getProject, deleteProject.
  induction projects as [|x rest IH]; simpl.
  - now destruct (String.eqb id id').
  - destruct (String.eqb_spec (Project.id x) id) as [Hx|Hx]; simpl.
    + rewrite IH. destruct (String.eqb_spec id id') as [Hi|Hi];
        [reflexivity|].
      destruct (String.eqb_spec (Project.id x) id'); [congruence|].
      reflexivity.
    + destruct (String.eqb_spec (Project.id x) id') as [Hi|Hi];
        [|exact IH].
      destruct (String.eqb_spec id id'); [congruence|reflexivity].
Qed.

(** X18.  A save keeps the stored ids and their order: a stored id keeps its
    place, a new one goes to the end.  So ids that were unique stay unique. *)
Theorem saveProject_ids now projects project :
  map Project.id (saveProject now projects project) =
    match getProject projects (Project.id project) with
    | Some _ => map Project.id projects
    | None => map Project.id projects ++ [Project.id project]
    end /\
  (NoDup (map Project.id projects) ->
   NoDup (map Project.id (saveProject now projects project))).
Proof.
  assert (Hids :
    map Project.id (saveProject now projects project) =
    match getProject projects (Project.id project) with
    | Some _ => map Project.id projects
    | None => map Project.id projects ++ [Project.id project]
    end).
  { induction projects as [|x rest IH]; [reflexivity|].
    rewrite saveProject_cons. unfold getProject in *. simpl.
    destruct (String.eqb_spec (Project.id x) (Project.id project)) as [Hx|Hx].
    - simpl. now rewrite Hx.
    - simpl. rewrite IH.
      now destruct (List.find _ rest). }
  split; [exact Hids|].
  intros Hnd. rewrite Hids.
  destruct (getProject projects (Project.id project)) eqn:Hget;
    [exact Hnd|].
  apply NoDup_app. split; [exact Hnd|]. split; [|apply NoDup_singleton].
  intros i Hi Hin. apply list_elem_of_singleton in Hin. subst i.
  apply list_elem_of_In, in_map_iff in Hi as (q & Hq & Hin).
  unfold getProject in Hget.
  apply (find_none _ _ Hget) in Hin. simpl in Hin.
  rewrite Hq, String.eqb_refl in Hin. discriminate.
Qed.

End StorageExtras.

(** ** Creating a project *)

Section CreationExtras.

Variable numberToString : float -> string.


Lemma patternPoint_CL chainageStr :
  patternPoint chainageStr "CL" =
  ChainagePoint.mk chainageStr 0%float (chainageStr ++ " CL")%string (Some CL).
Proof. reflexivity. Qed.


(** X19.  The number of points per chainage passed to [createProject] plays no
    part in the table: the pattern, or the three labels that stand in for a
    missing or empty one, decides the points of a station. *)
Theorem createProject_ignores_pointsPerChainage fuel clock today projects
    title layer fromChainage toChainage chainageInterval pointPattern
    pointsPerChainage pointsPerChainage' :
  option_map (fun created => Project.rows (fst created))
    (createProject numberToString fuel clock today projects title layer
       fromChainage toChainage chainageInterval pointsPerChainage
       pointPattern) =
  option_map (fun created => Project.rows (fst created))
    (createProject numberToString fuel clock today projects title layer
       fromChainage toChainage chainageInterval pointsPerChainage'
       pointPattern).
Proof.
  unfold createProject, generateTableRows, generateChainagePoints. simpl.
  set (pattern := match pointPattern with
                  | Some (label :: labels) => label :: labels
                  | _ => _
                  end).
  assert (Hp : exists label labels, pattern = label :: labels)
    by (unfold pattern; destruct pointPattern as [[|? ?]|]; eauto).
  destruct Hp as (label & labels & ->).
  rewrite (stationLoop_ext fuel
             (stationPoints numberToString pointsPerChainage
                (Some (label :: labels)))
             (stationPoints numberToString pointsPerChainage'
                (Some (label :: labels)))) by reflexivity.
  now destruct (stationLoop _ _ _ _ _).
Qed.



End CreationExtras.



(** ** The helper for the height of collimation *)

Section HocExtras.

(** X22.  On an ordinary row that holds a backsight, reduction sets the height
    of collimation to the carried level (the benchmark's, or the last change
    point's) plus the backsight.  [calculateHOC], called with that level,
    gives the same value unless the backsight is 0, where it gives nothing and
    reduction still sets the height. *)
Theorem calculateHOC_agrees rows benchmark i row b m :
  rows !! i = Some row ->
  isClosing row = false -> Js.flag (Row.isCP row) = false ->
  Row.bs row = Some b ->
  currentBM (stateAfter 0 (initialState benchmark) (take i rows)) = Some m ->
  exists r,
    processRows rows benchmark !! i = Some r /\
    Row.hoc r = Some (m + b)%float /\
    calculateHOC row (Some m) benchmark =
      (if Js.truthy b then Row.hoc r else None) /\
    forall bm, Benchmark.rl bm = m ->
      calculateHOC row None (Some bm) =
        (if Js.truthy b then Row.hoc r else None).
Proof.
  intros Hi Hcl Hcp Hbs Hbm.
  rewrite (processRows_lookup _ _ _ _ Hi).
  eexists. split; [reflexivity|].
  set (r := fst (processRow _ _ _)).
  assert (Hhoc : forall r0 : Row.t,
            Row.hoc r0 = Some (m + b)%float ->
            Row.hoc
              (let newRow :=
                 match Row.hoc r0 with
                 | Some _ =>
                     match calculateRL r0 (Row.hoc r0) with
                     | Some v => Row.with_rl (Some v) r0
                     | None => r0
                     end
                 | None => r0
                 end in
               match Row.rl newRow with
               | Some _ =>
                   match calculateDiff newRow with
                   | Some df => Row.with_diff (Some df) newRow
                   | None => newRow
                   end
               | None => newRow
               end) = Some (m + b)%float).
  { intros r0 Hr. cbv zeta. rewrite Hr.
    destruct (calculateRL r0 _); simpl;
      repeat match goal with
             | |- context [match ?t with _ => _ end] => destruct t; simpl
             end; exact Hr. }
  assert (Hr : Row.hoc r = Some (m + b)%float).
  { subst r. unfold processRow. unfold isClosing in Hcl. rewrite Hcl, Hcp.
    unfold processOrdinary. rewrite Hbs, Hbm.
    exact (Hhoc (Row.with_hoc (Some (m + b)%float) row) eq_refl). }
  rewrite Hr. unfold calculateHOC. rewrite Hbs.
  split; [reflexivity|]. split.
  - now destruct (Js.truthy b).
  - intros bm <-. now destruct (Js.truthy b).
Qed.

End HocExtras.

Lemma calculateHOC_agrees_witness :
  exists r,
    processRows Example.survey (Example.bench 100) !! 0%nat = Some r /\
    Row.hoc r = Some 101.5%float /\
    calculateHOC (Example.bmRow 1.5) None (Example.bench 100) = Some 101.5%float.
Proof.
  destruct (calculateHOC_agrees Example.survey (Example.bench 100) 0
              (Example.bmRow 1.5) 1.5%float 100%float
              eq_refl eq_refl eq_refl eq_refl eq_refl)
    as (r & Hr & Hhoc & _ & Hbm).
  exists r. split; [exact Hr|]. split; [rewrite Hhoc; reflexivity|].
  unfold Example.bench.
  rewrite (Hbm (Benchmark.mk "BM1" 100%float) eq_refl), Hhoc. reflexivity.
Defined.

(** ** Removing a change point from the table on the screen *)

Section DeleteHandlerExtras.

Local Open Scope nat_scope.

Lemma findIndex_unique {A} (key : A -> string) l : forall i x,
  NoDup (map key l) -> l !! i = Some x ->
  findIndex (fun y => String.eqb (key y) (key x)) l = Some i.
Proof.
  induction l as [|y l IH]; intros i x Hnd Hi; [discriminate|].
  simpl in Hnd. apply NoDup_cons in Hnd as [Hy Hnd].
  destruct i as [|i]; simpl in Hi |- *.
  - injection Hi as ->. now rewrite String.eqb_refl.
  - destruct (String.eqb_spec (key y) (key x)) as [E|_].
    + exfalso. apply Hy. rewrite E.
      apply list_elem_of_In, in_map, list_elem_of_In.
      eapply list_elem_of_lookup_2. exact Hi.
    + now rewrite (IH i x Hnd Hi).
Qed.

(** X23.  The handler looks the change point up by its id.  When the ids of
    the rows are unique, the row it hands to [deleteChangePoint] is the row of
    the table on the screen that was clicked, and the project stored is the
    one with that change point removed. *)
Theorem handleDeleteCP_unique_ids project i row :
  NoDup (map Row.id (Project.rows project)) ->
  Project.rows project !! i = Some row ->
  Js.flag (Row.isCP row) = true ->
  handleDeleteCP true project i =
  Some (Project.with_rows (deleteChangePoint (Project.rows project) i)
          project).
Proof.
  intros Hnd Hi Hcp. unfold handleDeleteCP.
  rewrite (processRows_lookup _ _ _ _ Hi).
  destruct (processRow_sameInputs i
              (stateAfter 0 (initialState (Project.benchmark project))
                 (take i (Project.rows project))) row)
    as (Hid & _ & _ & _ & _ & _ & Hflag & _).
  rewrite Hflag, Hcp, Hid. simpl.
  now rewrite (findIndex_unique Row.id _ i row Hnd Hi).
Qed.

End DeleteHandlerExtras.

Lemma handleDeleteCP_unique_ids_witness :
  option_map (fun p => map Row.chainage (Project.rows p))
    (handleDeleteCP true Example.project 2)
  = Some [""; "LHS"; ""; "RHS"; "LHS"; ""]%string.
Proof.
  rewrite (handleDeleteCP_unique_ids Example.project 2 Example.midCP).
  - reflexivity.
  - vm_compute. repeat constructor; intros H;
      repeat (apply elem_of_cons in H as [H|H]; [discriminate H|]);
      apply elem_of_nil in H; exact H.
  - reflexivity.
  - reflexivity.
Defined.
